(** * Sales Performance Dashboard (app.py): the data pipeline

    A shallow embedding of the pipeline of [app.py]: column
    standardisation ([standardize_columns]), cleaning and period keys
    ([preprocess]), the sidebar selections, the filters applied to the
    cleaned table, and the KPI block ([kpi_block]).

    A pandas DataFrame is a list of column labels (labels may repeat) and
    a list of rows; a cell is missing (NaN / <NA>), a number or a text.
    A number is the rational that the int64 or float64 value stands for.
    The sums and the mean that pandas computes on a column (float64
    additions in numpy's order, or int64 additions modulo 2^64) are
    parameters, of which only the range in which they are exact is used.
    Labels and texts are byte strings; [str.upper] and [str.strip] act on
    the ASCII range.  Python exceptions are values of [result]. *)

From Stdlib Require Import Ascii DecimalString QArith Qcanon.
From stdpp Require Import base tactics option list numbers strings sorting.

(** ** Exceptions *)

Inductive exn := KeyError | TypeError | ValueError | AttributeError.

Inductive result (A : Type) :=
  | Ok (a : A)
  | Raise (e : exn).
Arguments Ok {A} a.
Arguments Raise {A} e.

#[global] Instance result_ret : MRet result := fun A a => Ok a.
#[global] Instance result_bind : MBind result := fun A B f m =>
  match m with Ok a => f a | Raise e => Raise e end.
#[global] Instance result_fmap : FMap result := fun A B f m =>
  match m with Ok a => Ok (f a) | Raise e => Raise e end.

Definition returns {A} (m : result A) : Prop := ∃ a, m = Ok a.

(** ** Cells *)

Inductive cell :=
  | NA
  | Num (q : Qc)
  | Str (s : string).

#[global] Instance cell_eq_dec : EqDecision cell.
Proof. solve_decision. Defined.

Definition isna (c : cell) : bool :=
  match c with NA => true | _ => false end.

Definition is_num (c : cell) : bool :=
  match c with Num _ => true | _ => false end.

(** ** Labels: [str.strip] and [str.upper] *)

(** Python's ASCII white space: TAB LF VT FF CR, FS GS RS US, SPACE. *)
Definition is_space (a : ascii) : bool :=
  let n := nat_of_ascii a in
  ((9 <=? n) && (n <=? 13) || (28 <=? n) && (n <=? 32))%nat.

Definition upper_ascii (a : ascii) : ascii :=
  let n := nat_of_ascii a in
  if ((97 <=? n) && (n <=? 122))%nat then ascii_of_nat (n - 32) else a.

Fixpoint upper (s : string) : string :=
  match s with
  | EmptyString => EmptyString
  | String a s' => String (upper_ascii a) (upper s')
  end.

Fixpoint lstrip (s : string) : string :=
  match s with
  | EmptyString => EmptyString
  | String a s' => if is_space a then lstrip s' else s
  end.

Fixpoint rstrip (s : string) : string :=
  match s with
  | EmptyString => EmptyString
  | String a s' =>
      match rstrip s' with
      | EmptyString => if is_space a then EmptyString else String a EmptyString
      | t => String a t
      end
  end.

Definition strip (s : string) : string := rstrip (lstrip s).

(** ** DataFrames *)

Record DataFrame := mkDF {
  columns : list string;
  rows : list (list cell)
}.

#[global] Instance DataFrame_eq_dec : EqDecision DataFrame.
Proof. solve_decision. Defined.

#[global] Instance DataFrame_inhabited : Inhabited DataFrame :=
  populate (mkDF [] []).

(** Every row has one cell per label. *)
Definition well_formed (df : DataFrame) : Prop :=
  Forall (fun r => length r = length (columns df)) (rows df).

#[global] Instance well_formed_dec df : Decision (well_formed df).
Proof. unfold well_formed. apply _. Defined.

(** ** standardize_columns *)

Definition RENAME_MAP : list (string * string) :=
  [ ("ITEM CODE", "ITEM_CODE");
    ("ITEM DESCRIPTION", "ITEM_DESCRIPTION");
    ("ITEM TYPE", "ITEM_TYPE");
    ("RETAIL SALES", "RETAIL_SALES");
    ("RETAIL TRANSFERS", "RETAIL_TRANSFERS");
    ("WAREHOUSE SALES", "WAREHOUSE_SALES") ].

(** [c in df.columns] *)
Definition has_col (c : string) (cols : list string) : bool :=
  bool_decide (c ∈ cols).

(** [df.rename(columns={old: new}, inplace=True)] on the labels. *)
Definition rename_label (old new : string) (cols : list string) : list string :=
  (fun c => if decide (c = old) then new else c) <$> cols.

(** The labels after [standardize_columns]: strip and upper-case each
    label, then rename the known ones, one entry of RENAME_MAP at a
    time. *)
Definition standardize_labels (cols : list string) : list string :=
  let cols := (fun c => upper (strip c)) <$> cols in
  foldl (fun cols '(old, new) =>
           if has_col old cols then rename_label old new cols else cols)
        cols RENAME_MAP.

(** The value [standardize_columns] leaves in (and returns as) [df]. *)
Definition standardize_columns (df : DataFrame) : DataFrame :=
  mkDF (standardize_labels (columns df)) (rows df).

(** ** Columns of a DataFrame *)

(** How often the label [c] occurs. *)
Definition col_count (c : string) (cols : list string) : nat :=
  length (filter (fun l => l = c) cols).

(** The cell of the row [r] under the first label [c] ([NA] when there is
    none). *)
Fixpoint row_get (c : string) (cols : list string) (r : list cell) : cell :=
  match cols, r with
  | l :: cols', x :: r' => if decide (l = c) then x else row_get c cols' r'
  | _, _ => NA
  end.

(** The values of the column [c], top to bottom. *)
Definition column (df : DataFrame) (c : string) : list cell :=
  row_get c (columns df) <$> rows df.

(** [df[c]] where the program goes on to use it as a Series.  An absent
    label raises KeyError.  A label that occurs several times selects a
    DataFrame, on which the Series-only operation at hand
    ([pd.to_numeric], [.unique()], [float(...)], a group key) raises: [e]
    is the exception of that operation. *)
Definition getitem (e : exn) (df : DataFrame) (c : string) : result (list cell) :=
  match col_count c (columns df) with
  | 0 => Raise KeyError
  | 1 => Ok (column df c)
  | _ => Raise e
  end.

(** Apply [f] to the cells of the row [r] that stand under the label [c]. *)
Fixpoint map_at (c : string) (f : cell → cell) (cols : list string)
    (r : list cell) : list cell :=
  match cols, r with
  | l :: cols', x :: r' =>
      (if decide (l = c) then f x else x) :: map_at c f cols' r'
  | _, _ => r
  end.

(** [df[c] = f(df[c])] for a cell-wise [f]. *)
Definition map_col (c : string) (f : cell → cell) (df : DataFrame) : DataFrame :=
  mkDF (columns df) (map_at c f (columns df) <$> rows df).

(** [df[c] = values]: an existing column is overwritten in place, a new
    one is appended on the right. *)
Definition set_col (c : string) (values : list cell) (df : DataFrame) : DataFrame :=
  if has_col c (columns df)
  then mkDF (columns df)
            (zip_with (fun r v => map_at c (fun _ => v) (columns df) r)
                      (rows df) values)
  else mkDF (columns df ++ [c])
            (zip_with (fun r v => r ++ [v]) (rows df) values).

(** [df[mask]]: the rows whose flag is set, in their order. *)
Fixpoint boolean_index {A} (mask : list bool) (l : list A) : list A :=
  match mask, l with
  | b :: mask', x :: l' =>
      if b then x :: boolean_index mask' l' else boolean_index mask' l'
  | _, _ => []
  end.

(** [df.rename(columns={old: new}, inplace=True)] *)
Definition rename (old new : string) (df : DataFrame) : DataFrame :=
  mkDF (rename_label old new (columns df)) (rows df).

(** ** Period labels *)

Definition digit (n : Z) : ascii := ascii_of_nat (48 + Z.to_nat n).

Definition pad2 (n : Z) : string :=
  String (digit ((n / 10) `mod` 10)) (String (digit (n `mod` 10)) EmptyString).

Definition pad4 (n : Z) : string :=
  String (digit ((n / 1000) `mod` 10))
         (String (digit ((n / 100) `mod` 10)) (pad2 n)).

(** [str] of a monthly Period: YYYY-MM. *)
Definition period_str (y m : Z) : string := pad4 y +:+ "-" +:+ pad2 m.

Definition is_leap (y : Z) : bool :=
  bool_decide (y `mod` 4 = 0 ∧ y `mod` 100 ≠ 0 ∨ y `mod` 400 = 0)%Z.

Definition days_in_month (y m : Z) : Z :=
  if bool_decide (m = 2)%Z then (if is_leap y then 29 else 28)%Z
  else if bool_decide (m ∈ [4; 6; 9; 11]%Z) then 30%Z else 31%Z.

(** [pd.to_datetime(dict(year=.., month=.., day=1))] adds the three
    fields up to one integer, year * 10000 + month * 100 + day, and reads
    it back in the format %Y%m%d. *)
Definition assemble (y m d : Z) : Z := (y * 10000 + m * 100 + d)%Z.

(** Reading YYYYMMDD: the month and the day must exist and the date must
    lie in the range of a nanosecond Timestamp, 1677-09-22 to 2262-04-11;
    anything else raises (ValueError).  The result is the year and the
    month of the date. *)
Definition read_yyyymmdd (v : Z) : option (Z * Z) :=
  let Y := (v / 10000)%Z in
  let M := ((v / 100) `mod` 100)%Z in
  let D := (v `mod` 100)%Z in
  if bool_decide (16770922 ≤ v ≤ 22620411)%Z
     && bool_decide (1 ≤ M ≤ 12)%Z
     && bool_decide (1 ≤ D ≤ days_in_month Y M)%Z
  then Some (Y, M) else None.

(** One element of
    [pd.to_datetime(dict(year, month, day=1)).dt.to_period("M").astype(str)]. *)
Definition month_year_label (y m : Z) : result cell :=
  match read_yyyymmdd (assemble y m 1) with
  | Some (Y, M) => Ok (Str (period_str Y M))
  | None => Raise ValueError
  end.

(** ** Numbers *)

(** An integer-valued number: what [astype("Int64")] accepts. *)
Definition is_integral (q : Qc) : bool := bool_decide (Qden q = 1%positive).

(** [int(x)] of a number: rounds towards zero. *)
Definition trunc (q : Qc) : Z := (Qnum q ÷ Z.pos (Qden q))%Z.

(** The numbers that [sum()] and [mean()] add up: missing cells are
    skipped.  A text cell is outside a numeric sum (TypeError); the
    measure columns hold no text once [preprocess] has run. *)
Fixpoint numbers (s : list cell) : result (list Qc) :=
  match s with
  | [] => Ok []
  | NA :: s' => numbers s'
  | Num q :: s' => l ← numbers s'; Ok (q :: l)
  | Str _ :: _ => Raise TypeError
  end.

(** [s.sum()], where [add] is the sum that pandas computes for the
    numbers of [s]. *)
Definition sum_cells (add : list Qc → Qc) (s : list cell) : result Qc :=
  l ← numbers s; Ok (add l).

(** [Series.unique()]: the distinct values in order of first occurrence. *)
Fixpoint unique {A} `{EqDecision A} (l : list A) : list A :=
  match l with
  | [] => []
  | x :: l' => x :: filter (fun y => y ≠ x) (unique l')
  end.

(** [sorted(...)] of integers and of texts. *)
Definition sorted_ints (l : list Z) : list Z := merge_sort Z.le l.
Definition sorted_texts (l : list string) : list string := merge_sort String.le l.

(** [for x in l: s = f(x, s)], stopping at the first exception. *)
Fixpoint for_each {A S} (f : A → S → result S) (l : list A) (s : S) : result S :=
  match l with
  | [] => Ok s
  | x :: l' => s' ← f x s; for_each f l' s'
  end.

(** A list is true in Python when it is not empty. *)
Definition truthy {A} (l : list A) : bool :=
  match l with [] => false | _ => true end.

(** [df.dropna(subset=subset)] *)
Definition dropna (subset : list string) (df : DataFrame) : DataFrame :=
  mkDF (columns df)
       (filter (fun r => forallb (fun c => negb (isna (row_get c (columns df) r))) subset)
               (rows df)).

(** [astype("Int64")] of a numeric column: a number that is not an
    integer cannot be cast (TypeError); a missing value stays missing. *)
Definition astype_Int64 (x : cell) : result cell :=
  match x with
  | Num q => if is_integral q then Ok x else Raise TypeError
  | _ => Ok x
  end.

(** [astype(int)] of an Int64 value. *)
Definition astype_int (x : cell) : result Z :=
  match x with
  | Num q => Ok (trunc q)
  | _ => Raise ValueError
  end.

(** [fillna(0)] *)
Definition fillna0 (x : cell) : cell :=
  match x with NA => Num 0%Qc | _ => x end.

(** [astype("category")] leaves the values as they are. *)
Definition astype_category (x : cell) : cell := x.

(** The sum and the mean of a list of numbers, without rounding. *)
Definition sum_Qc (l : list Qc) : Qc := foldr Qcplus 0%Qc l.

Definition mean (l : list Qc) : Qc :=
  (sum_Qc l / Qc_of_Z (Z.of_nat (length l)))%Qc.

(** *** Where the arithmetic of pandas is exact

    A float64 holds every integer up to 2^53 in magnitude, and an int64
    every integer below 2^63: adding integers whose magnitudes add up to
    at most 2^53 is exact in both, in any order.  A float64 division is
    rounded once: it is exact when the quotient is a float64 number. *)

(** The numerator of a number: the number itself when it is an
    integer. *)
Definition numerator (q : Qc) : Z := Qnum q.

(** The sum of the magnitudes of a list of integers. *)
Definition magnitude (l : list Qc) : Z :=
  foldr (fun q a => (Z.abs (numerator q) + a)%Z) 0%Z l.

Definition small_integers (l : list Qc) : Prop :=
  Forall (fun q => is_integral q) l ∧ (magnitude l ≤ 2 ^ 53)%Z.

(** A float64 number of magnitude at most 2^53: n / 2^k with |n| up to
    2^53 and k up to 1074. *)
Definition is_float64 (q : Qc) : bool :=
  bool_decide (Z.abs (Qnum q) ≤ 2 ^ 53)%Z
  && bool_decide (Z.pos (Qden q) = 2 ^ Z.log2 (Z.pos (Qden q)))%Z
  && bool_decide (Z.log2 (Z.pos (Qden q)) ≤ 1074)%Z.

#[global] Instance small_integers_dec l : Decision (small_integers l).
Proof. unfold small_integers. apply _. Defined.

(** A sum of pandas: exact on small integers. *)
Definition exact_sum (add : list Qc → Qc) : Prop :=
  ∀ l, small_integers l → add l = sum_Qc l.

(** A mean of pandas, the float64 quotient of the sum by the count:
    exact on small integers whose mean is a float64 number. *)
Definition exact_mean (avg : list Qc → Qc) : Prop :=
  ∀ l, l ≠ [] → small_integers l → is_float64 (mean l) → avg l = mean l.

(** The filter selection made in the sidebar. *)
Record Selection := mkSel {
  year_sel : list Z;
  supplier_sel : list string;
  type_sel : list string
}.

(** The KPI mapping, in the order in which [kpi_block] fills it. *)
Definition KPIs := list (string * Qc).

(** ** Plain decimal literals

    A reading of the three library functions on plain decimal literals
    (an optional sign, digits, an optional fraction), with which the
    examples below are run. *)
Module Literal.

Fixpoint split_dot (s : string) : string * option string :=
  match s with
  | EmptyString => (EmptyString, None)
  | String a s' =>
      if decide (a = "."%char) then (EmptyString, Some s')
      else let '(i, f) := split_dot s' in (String a i, f)
  end.

Definition unsigned (s : string) : option Qc :=
  let '(i, f) := split_dot s in
  i ← NilZero.uint_of_string i;
  match f with
  | None => Some (Qc_of_Z (Z.of_uint i))
  | Some f =>
      f ← NilZero.uint_of_string f;
      Some (Qc_of_Z (Z.of_uint i)
            + Qc_of_Z (Z.of_uint f) / Qc_of_Z (10 ^ Z.of_nat (Decimal.nb_digits f)))%Qc
  end.

Definition to_numeric_text (s : string) : option Qc :=
  match s with
  | String "-" s' => Qcopp <$> unsigned s'
  | String "+" s' => unsigned s'
  | _ => unsigned s
  end.

Definition int_of_text (s : string) : option Z :=
  match s with
  | String "+" s' => Z.of_uint <$> NilZero.uint_of_string s'
  | _ => Z.of_int <$> NilZero.int_of_string s
  end.

Definition str_of_num (q : Qc) : string :=
  if is_integral q then NilZero.string_of_int (Z.to_int (Qnum q))
  else NilZero.string_of_int (Z.to_int (Qnum q)) +:+ "/"
       +:+ NilZero.string_of_uint (Pos.to_uint (Qden q)).

End Literal.

(** ** float64 and int64

    The two number formats of a numeric column, for the examples in
    which the arithmetic of the machine shows. *)
Module Float64.

Definition pow2 (e : Z) : Qc :=
  if bool_decide (0 ≤ e)%Z then Qc_of_Z (2 ^ e) else (/ Qc_of_Z (2 ^ (- e)))%Qc.

Definition abs (q : Qc) : Qc := if decide (q < 0)%Qc then (- q)%Qc else q.

(** The binary exponent of a positive number [a]: 2^e <= a < 2^(e+1). *)
Definition exponent (a : Qc) : Z :=
  let e := (Z.log2 (Qnum a) - Z.log2 (Z.pos (Qden a)))%Z in
  if decide (a < pow2 e)%Qc then (e - 1)%Z else e.

(** The integer nearest to a number that is not negative, the even one
    of two that are equally near. *)
Definition nearest_even (a : Qc) : Z :=
  let n := Qnum a in
  let d := Z.pos (Qden a) in
  let f := (n / d)%Z in
  let r := (2 * (n `mod` d))%Z in
  if bool_decide (r < d)%Z then f
  else if bool_decide (d < r)%Z then (f + 1)%Z
  else if Z.even f then f else (f + 1)%Z.

(** The float64 number nearest to [q] (of magnitude below 2^1024): 53
    bits from the leading one, or multiples of 2^-1074 for the smallest
    numbers. *)
Definition round (q : Qc) : Qc :=
  if decide (q = 0%Qc) then 0%Qc else
  let a := abs q in
  let ulp := pow2 (Z.max (exponent a) (- 1022) - 52) in
  let m := (Qc_of_Z (nearest_even (a / ulp)) * ulp)%Qc in
  if decide (q < 0)%Qc then (- m)%Qc else m.

(** [sum()] of a float64 column: the additions from left to right, each
    rounded (the order of numpy for fewer than eight numbers; where no
    addition rounds, the order does not matter). *)
Definition sum (l : list Qc) : Qc := foldl (fun a x => round (a + x)) 0%Qc l.

(** [mean()]: the numbers as float64, and the quotient of their sum by
    their count, rounded. *)
Definition mean (l : list Qc) : Qc :=
  round (sum (round <$> l) / Qc_of_Z (Z.of_nat (length l))).

End Float64.

Module Int64.

(** The signed value of the low 64 bits. *)
Definition wrap (z : Z) : Z := ((z + 2 ^ 63) `mod` 2 ^ 64 - 2 ^ 63)%Z.

(** [s.sum()] of an int64 column: the additions wrap around. *)
Definition add_up (l : list Qc) : Qc :=
  Qc_of_Z (wrap (foldr Z.add 0%Z (trunc <$> l))).

(** [float(s.sum())] *)
Definition sum (l : list Qc) : Qc := Float64.round (add_up l).

End Int64.

(** ** Tables for the examples *)

(** An integer cell. *)
Definition Int (z : Z) : cell := Num (Qc_of_Z z).

(** A raw table with two periods, and the table that [preprocess]
    returns for it. *)
Definition raw_2023 : DataFrame :=
  mkDF [ "Year"; "Month"; "Supplier"; "Item Type"; "Retail Sales" ]
       [ [Int 2023; Int 1; Str "A"; Str "WINE"; Int 40];
         [Int 2023; Int 1; Str "B"; Str "BEER"; Int 60];
         [Int 2023; Int 2; Str "A"; Str "WINE"; Int 300] ].

Definition sales_2023 : DataFrame :=
  mkDF [ "YEAR"; "MONTH"; "SUPPLIER"; "ITEM_TYPE"; "RETAIL_SALES"; "MONTH_YEAR" ]
       [ [Int 2023; Int 1; Str "A"; Str "WINE"; Int 40; Str "2023-01"];
         [Int 2023; Int 1; Str "B"; Str "BEER"; Int 60; Str "2023-01"];
         [Int 2023; Int 2; Str "A"; Str "WINE"; Int 300; Str "2023-02"] ].

(** A table with a measure cell of each kind. *)
Definition raw_cells : DataFrame :=
  mkDF [ "Supplier"; "Retail Sales"; "warehouse sales " ]
       [ [Str "A"; Str "abc"; Int 7]; [NA; Str "-5"; NA] ].

(** YEAR = 2023 with MONTH = 13, and with MONTH = 101. *)
Definition month_13 : DataFrame := mkDF [ "YEAR"; "MONTH" ] [ [Int 2023; Int 13] ].
Definition month_101 : DataFrame := mkDF [ "YEAR"; "MONTH" ] [ [Int 2023; Int 101] ].

(** A table with YEAR and MONTH and no RETAIL_SALES, without rows and
    with one row. *)
Definition no_sales_empty : DataFrame := mkDF [ "YEAR"; "MONTH" ] [].
Definition no_sales : DataFrame :=
  mkDF [ "YEAR"; "MONTH"; "SUPPLIER" ] [ [Int 2023; Int 1; Str "A"] ].

(** A table with RETAIL_SALES only. *)
Definition sales_only : DataFrame := mkDF [ "RETAIL_SALES" ] [ [Int 5] ].

(** A table with YEAR and no MONTH, one YEAR missing. *)
Definition year_missing : DataFrame := mkDF [ "YEAR" ] [ [Int 2023]; [NA] ].

(** A table that brings its own MONTH_YEAR column, one value missing,
    and has neither YEAR nor MONTH. *)
Definition period_missing : DataFrame :=
  mkDF [ "MONTH_YEAR"; "RETAIL_SALES" ]
       [ [Str "2023-01"; Int 100]; [NA; Int 50] ].

(** A table whose header names RETAIL_SALES in both spellings. *)
Definition dup_sales : DataFrame :=
  mkDF [ "Retail Sales"; "RETAIL_SALES" ] [ [Int 1; Int 2] ].

(** Two years, two suppliers. *)
Definition sales_two_years : DataFrame :=
  mkDF [ "YEAR"; "MONTH"; "SUPPLIER"; "ITEM_TYPE"; "RETAIL_SALES"; "MONTH_YEAR" ]
       [ [Int 2022; Int 12; Str "A"; Str "WINE"; Int 10; Str "2022-12"];
         [Int 2023; Int 1; Str "A"; Str "WINE"; Int 40; Str "2023-01"];
         [Int 2023; Int 1; Str "B"; Str "BEER"; Int 60; Str "2023-01"] ].

(** An int64 column whose sum is 2^63. *)
Definition big_sales : DataFrame :=
  mkDF [ "RETAIL_SALES" ] [ [Int (2 ^ 62)]; [Int (2 ^ 62)] ].

(** Seven periods with the total 29. *)
Definition seven_periods : DataFrame :=
  mkDF [ "MONTH_YEAR"; "RETAIL_SALES" ]
       [ [Str "2023-01"; Int 5]; [Str "2023-02"; Int 4]; [Str "2023-03"; Int 4];
         [Str "2023-04"; Int 4]; [Str "2023-05"; Int 4]; [Str "2023-06"; Int 4];
         [Str "2023-07"; Int 4] ].

(** A table whose ITEM_DESCRIPTION is a number. *)
Definition numbered_items : DataFrame :=
  mkDF [ "ITEM_DESCRIPTION"; "RETAIL_SALES" ] [ [Int 7; Int 5] ].

(** A table with a legacy label. *)
Definition legacy_label : DataFrame := mkDF [ " item code" ] [ [Str "A1"] ].

(** A decidable closed fact, by evaluation. *)
Ltac by_compute := apply (bool_decide_unpack _); by vm_compute.

Section Pipeline.

Set Default Proof Using "Type".

(** Three functions of pandas and Python on one value are parameters of
    the development: [pd.to_numeric] of a text ([None] when the text
    is not a number), [str] of a number, and [int] of a text ([None]
    when it raises ValueError). *)
Variable to_numeric_text : string → option Qc.
Variable str_of_num : Qc → string.
Variable int_of_text : string → option Z.

(** So is the arithmetic of pandas on the numbers of a column, which is
    float64 or int64 with the dtype of the column (a dtype is not part
    of a table here): [float(s.sum())] for the column [s] named [c],
    the sum of one group of [groupby(...)["RETAIL_SALES"].sum()], and
    [float(monthly.mean())]. *)
Variable series_sum : string → list Qc → Qc.
Variable grouped_sum : list Qc → Qc.
Variable series_mean : list Qc → Qc.

(** [pd.to_numeric(..., errors="coerce")] on one cell. *)
Definition to_numeric (x : cell) : cell :=
  match x with
  | Str s => match to_numeric_text s with Some q => Num q | None => NA end
  | _ => x
  end.

(** [astype(str)] on one cell. *)
Definition astype_str (x : cell) : string :=
  match x with
  | NA => "nan"
  | Num q => str_of_num q
  | Str s => s
  end.

(** [int(x)] *)
Definition int_of (x : cell) : result Z :=
  match x with
  | Num q => Ok (trunc q)
  | Str s => match int_of_text s with Some z => Ok z | None => Raise ValueError end
  | NA => Raise ValueError
  end.

(** *** preprocess: cleaning (lines 65-92) *)

Definition NUMERIC_COLS : list string :=
  [ "RETAIL_SALES"; "RETAIL TRANSFERS"; "RETAIL_TRANSFERS"; "WAREHOUSE_SALES";
    "RETAIL SALES"; "RETAIL TRANSFERS"; "WAREHOUSE SALES" ].

(** [if col in df.columns: df[col] = pd.to_numeric(df[col], errors="coerce")] *)
Definition ensure_numeric (col : string) (df : DataFrame) : result DataFrame :=
  if has_col col (columns df)
  then _ ← getitem TypeError df col; Ok (map_col col to_numeric df)
  else Ok df.

(** [if old in df.columns and new not in df.columns: df.rename(...)] *)
Definition coalesce (old new : string) (df : DataFrame) : DataFrame :=
  if has_col old (columns df) && negb (has_col new (columns df))
  then rename old new df else df.

(** [if c in df.columns: df[c] = f(df[c])] for a cell-wise [f] that
    also applies to a DataFrame. *)
Definition update_if_present (f : cell → cell) (c : string) (df : DataFrame)
    : DataFrame :=
  if has_col c (columns df) then map_col c f df else df.

(** Lines 72-92, on the standardized copy. *)
Definition coerce_and_fill (df : DataFrame) : result DataFrame :=
  df ← for_each ensure_numeric NUMERIC_COLS df;
  let df := coalesce "RETAIL SALES" "RETAIL_SALES" df in
  let df := coalesce "RETAIL TRANSFERS" "RETAIL_TRANSFERS" df in
  let df := coalesce "WAREHOUSE SALES" "WAREHOUSE_SALES" df in
  let df := foldl (fun df c => update_if_present astype_category c df) df
              [ "SUPPLIER"; "ITEM_CODE"; "ITEM_DESCRIPTION"; "ITEM_TYPE" ] in
  let df := foldl (fun df c => update_if_present fillna0 c df) df
              [ "RETAIL_SALES"; "RETAIL_TRANSFERS"; "WAREHOUSE_SALES" ] in
  Ok df.

Definition clean (df : DataFrame) : result DataFrame :=
  coerce_and_fill (standardize_columns df).

(** *** preprocess: the period key (lines 95-103) *)

(** [df[c] = pd.to_numeric(df[c], errors="coerce").astype("Int64")] *)
Definition to_Int64 (c : string) (df : DataFrame) : result DataFrame :=
  s ← getitem TypeError df c;
  s ← mapM astype_Int64 (to_numeric <$> s);
  Ok (set_col c s df).

(** The MONTH_YEAR label of one row. *)
Definition month_year_of_row (cols : list string) (r : list cell) : result cell :=
  y ← astype_int (row_get "YEAR" cols r);
  m ← astype_int (row_get "MONTH" cols r);
  month_year_label y m.

(** Lines 97-98. *)
Definition year_month_int (df : DataFrame) : result DataFrame :=
  df ← to_Int64 "YEAR" df;
  to_Int64 "MONTH" df.

(** Lines 101-103, on the table that [dropna] returned. *)
Definition add_month_year (df : DataFrame) : result DataFrame :=
  labels ← mapM (month_year_of_row (columns df)) (rows df);
  Ok (set_col "MONTH_YEAR" labels df).

Definition period_key (df : DataFrame) : result DataFrame :=
  if has_col "YEAR" (columns df) && has_col "MONTH" (columns df) then
    df ← year_month_int df;
    add_month_year (dropna [ "YEAR"; "MONTH" ] df)
  else Ok df.

Definition preprocess (df : DataFrame) : result DataFrame :=
  df ← clean df;
  period_key df.

(** *** The sidebar (lines 145-166) *)

(** [sorted([int(x) for x in _df["YEAR"].dropna().unique()])], or no
    option at all without a YEAR column. *)
Definition years (_df : DataFrame) : result (list Z) :=
  if has_col "YEAR" (columns _df) then
    s ← getitem AttributeError _df "YEAR";
    ys ← mapM int_of (unique (filter (fun x => negb (isna x)) s));
    Ok (sorted_ints ys)
  else Ok [].

(** [sorted(list(_df[c].astype(str).unique()))], or no option at all
    without the column [c]. *)
Definition text_options (c : string) (_df : DataFrame) : result (list string) :=
  if has_col c (columns _df) then
    s ← getitem AttributeError _df c;
    Ok (sorted_texts (unique (astype_str <$> s)))
  else Ok [].

(** The options of the three multiselects. *)
Definition sidebar_options (_df : DataFrame) : result Selection :=
  ys ← years _df;
  suppliers ← text_options "SUPPLIER" _df;
  types ← text_options "ITEM_TYPE" _df;
  Ok (mkSel ys suppliers types).

(** The selection on first display: every year, the first ten
    suppliers, every item type. *)
Definition default_selection (_df : DataFrame) : result Selection :=
  o ← sidebar_options _df;
  Ok (mkSel (year_sel o) (take 10 (supplier_sel o)) (type_sel o)).

(** A multiselect returns some of its options. *)
Definition offered (_df : DataFrame) (sel : Selection) : Prop :=
  ∃ o, sidebar_options _df = Ok o
       ∧ year_sel sel ⊆ year_sel o
       ∧ supplier_sel sel ⊆ supplier_sel o
       ∧ type_sel sel ⊆ type_sel o.

(** *** The filters (lines 168-175) *)

(** [Series.isin(year_sel)] on one cell of YEAR. *)
Definition isin_years (ys : list Z) (x : cell) : bool :=
  match x with
  | Num q => bool_decide (q ∈ Qc_of_Z <$> ys)
  | _ => false
  end.

(** [Series.astype(str).isin(sel)] on one cell. *)
Definition isin_texts (sel : list string) (x : cell) : bool :=
  bool_decide (astype_str x ∈ sel).

(** [filtered = filtered[test(filtered[c])]] *)
Definition keep_where (c : string) (test : cell → bool) (filtered : DataFrame)
    : result DataFrame :=
  s ← getitem ValueError filtered c;
  Ok (mkDF (columns filtered) (boolean_index (test <$> s) (rows filtered))).

Definition apply_filters (_df : DataFrame) (sel : Selection) : result DataFrame :=
  let filtered := _df in
  filtered ← (if truthy (year_sel sel)
              then keep_where "YEAR" (isin_years (year_sel sel)) filtered
              else Ok filtered);
  filtered ← (if truthy (supplier_sel sel) && has_col "SUPPLIER" (columns filtered)
              then keep_where "SUPPLIER" (isin_texts (supplier_sel sel)) filtered
              else Ok filtered);
  filtered ← (if truthy (type_sel sel) && has_col "ITEM_TYPE" (columns filtered)
              then keep_where "ITEM_TYPE" (isin_texts (type_sel sel)) filtered
              else Ok filtered);
  Ok filtered.

(** *** kpi_block (lines 108-119) *)

(** [float(filtered.get(c, pd.Series([0])).sum())]; the sum of the
    default, the int64 Series [[0]], is 0. *)
Definition total (filtered : DataFrame) (c : string) : result Qc :=
  if has_col c (columns filtered)
  then s ← getitem TypeError filtered c; sum_cells (series_sum c) s
  else Ok 0%Qc.

(** [groupby(key)[value].sum()]: one sum for each distinct key that is
    not missing.  pandas orders the groups by key; [kpi_block] takes
    only their number and their mean, so they are listed here in order
    of first occurrence. *)
Definition groupby_sum (keys vals : list cell) : result (list (cell * Qc)) :=
  mapM (fun k =>
          t ← sum_cells grouped_sum
                (boolean_index ((fun x => bool_decide (x = k)) <$> keys) vals);
          Ok (k, t))
       (unique (filter (fun x => negb (isna x)) keys)).

Definition avg_monthly (filtered : DataFrame) : result Qc :=
  if has_col "MONTH_YEAR" (columns filtered) then
    keys ← getitem ValueError filtered "MONTH_YEAR";
    vals ← getitem TypeError filtered "RETAIL_SALES";
    monthly ← groupby_sum keys vals;
    Ok (if truthy monthly then series_mean (snd <$> monthly) else 0%Qc)
  else Ok 0%Qc.

Definition kpi_block (filtered : DataFrame) : result KPIs :=
  trs ← total filtered "RETAIL_SALES";
  trt ← total filtered "RETAIL_TRANSFERS";
  tws ← total filtered "WAREHOUSE_SALES";
  avg ← avg_monthly filtered;
  Ok [ ("Total Retail Sales", trs);
       ("Total Retail Transfers", trt);
       ("Total Warehouse Sales", tws);
       ("Avg Monthly Retail Sales", avg) ].

(** *** Charts: the dates of the first chart (lines 193-194)

    [if "MONTH_YEAR" in filtered.columns:
       filtered["MONTH_YEAR"] = pd.to_datetime(filtered["MONTH_YEAR"])],
    where [to_datetime s] is the column of Timestamps that
    [pd.to_datetime] returns for the column [s], or the exception it
    raises. *)
Definition month_year_dates (to_datetime : list cell → result (list cell))
    (filtered : DataFrame) : result DataFrame :=
  if has_col "MONTH_YEAR" (columns filtered) then
    s ← getitem ValueError filtered "MONTH_YEAR";
    s ← to_datetime s;
    Ok (set_col "MONTH_YEAR" s filtered)
  else Ok filtered.

(** *** Charts: the label column of the third chart (line 235)

    [filtered["ITEM_DESCRIPTION"] = filtered["ITEM_DESCRIPTION"].astype(str)],
    which runs before the test [if "ITEM_DESCRIPTION" in filtered.columns]. *)
Definition item_labels (filtered : DataFrame) : result DataFrame :=
  match col_count "ITEM_DESCRIPTION" (columns filtered) with
  | 0 => Raise KeyError
  | _ => Ok (map_col "ITEM_DESCRIPTION" (fun x => Str (astype_str x)) filtered)
  end.

(** *** The script, lines 140-180, with the selection left as the
    sidebar first shows it *)
Definition dashboard_kpis (raw : DataFrame) : result KPIs :=
  _df ← preprocess raw;
  sel ← default_selection _df;
  filtered ← apply_filters _df sel;
  kpi_block filtered.

(** *** Objects

    pandas DataFrames are objects: [df.columns = cols], [inplace=True]
    and [df[c] = ...] write to the object they are called on, while
    [df.copy()], [df.dropna(...)] and [df[mask]] make a new one.  The
    store lists the objects; a reference is a position in it.  Each
    function below is the function of the same name above, with the
    object that it writes to made explicit. *)

(** [df.copy()], and any other expression whose value is a new object. *)
Definition obj_new (d : DataFrame) (h : list DataFrame) : nat * list DataFrame :=
  (length h, h ++ [d]).

Definition obj_copy (df : nat) (h : list DataFrame) : nat * list DataFrame :=
  obj_new (h !!! df) h.

(** Lines 44-50: the labels of [df] are overwritten and [df] itself is
    returned. *)
Definition obj_standardize_columns (df : nat) (h : list DataFrame)
    : nat * list DataFrame :=
  (df, <[df := standardize_columns (h !!! df)]> h).

Definition obj_preprocess (df : nat) (h : list DataFrame)
    : result (nat * list DataFrame) :=
  let '(df, h) := obj_copy df h in
  let '(df, h) := obj_standardize_columns df h in
  d ← coerce_and_fill (h !!! df);
  let h := <[df := d]> h in
  if has_col "YEAR" (columns d) && has_col "MONTH" (columns d) then
    d ← year_month_int d;
    let h := <[df := d]> h in
    let '(df, h) := obj_new (dropna [ "YEAR"; "MONTH" ] d) h in
    d ← add_month_year (h !!! df);
    Ok (df, <[df := d]> h)
  else Ok (df, h).

(** [filtered = filtered[test(filtered[c])]]: the name [filtered] is
    bound to a new object. *)
Definition obj_keep_where (c : string) (test : cell → bool) (filtered : nat)
    (h : list DataFrame) : result (nat * list DataFrame) :=
  d ← keep_where c test (h !!! filtered);
  Ok (obj_new d h).

(** Lines 169-175: [filtered] starts as a copy of [_df]. *)
Definition obj_apply_filters (_df : nat) (sel : Selection) (h : list DataFrame)
    : result (nat * list DataFrame) :=
  let '(filtered, h) := obj_copy _df h in
  '(filtered, h) ← (if truthy (year_sel sel)
                    then obj_keep_where "YEAR" (isin_years (year_sel sel)) filtered h
                    else Ok (filtered, h));
  '(filtered, h) ← (if truthy (supplier_sel sel)
                       && has_col "SUPPLIER" (columns (h !!! filtered))
                    then obj_keep_where "SUPPLIER" (isin_texts (supplier_sel sel))
                           filtered h
                    else Ok (filtered, h));
  '(filtered, h) ← (if truthy (type_sel sel)
                       && has_col "ITEM_TYPE" (columns (h !!! filtered))
                    then obj_keep_where "ITEM_TYPE" (isin_texts (type_sel sel))
                           filtered h
                    else Ok (filtered, h));
  Ok (filtered, h).

(** An expression that only reads the object [df]. *)
Definition obj_read {A} (f : DataFrame → result A) (df : nat) (h : list DataFrame)
    : result (A * list DataFrame) :=
  x ← f (h !!! df);
  Ok (x, h).

(** Lines 109-119: four expressions that read [filtered]; the mapping
    [kpis] is new. *)
Definition obj_kpi_block (filtered : nat) (h : list DataFrame)
    : result (KPIs * list DataFrame) :=
  '(trs, h) ← obj_read (fun d => total d "RETAIL_SALES") filtered h;
  '(trt, h) ← obj_read (fun d => total d "RETAIL_TRANSFERS") filtered h;
  '(tws, h) ← obj_read (fun d => total d "WAREHOUSE_SALES") filtered h;
  '(avg, h) ← obj_read avg_monthly filtered h;
  Ok ([ ("Total Retail Sales", trs);
        ("Total Retail Transfers", trt);
        ("Total Warehouse Sales", tws);
        ("Avg Monthly Retail Sales", avg) ], h).

(** Line 194 assigns to a column of [filtered] itself. *)
Definition obj_month_year_dates (to_datetime : list cell → result (list cell))
    (filtered : nat) (h : list DataFrame) : result (nat * list DataFrame) :=
  d ← month_year_dates to_datetime (h !!! filtered);
  Ok (filtered, <[filtered := d]> h).

(** So does line 235. *)
Definition obj_item_labels (filtered : nat) (h : list DataFrame)
    : result (nat * list DataFrame) :=
  d ← item_labels (h !!! filtered);
  Ok (filtered, <[filtered := d]> h).

(** The outcome of a stage that returns a new object: the object [r]
    did not exist in the store [h], it holds [d], and the objects of [h]
    are as they were. *)
Definition fresh_result (h : list DataFrame) (d : DataFrame)
    (res : result (nat * list DataFrame)) : Prop :=
  ∃ r h', res = Ok (r, h')
    ∧ length h ≤ r ∧ h' !! r = Some d ∧ take (length h) h' = h.

(** *** Words of the specification *)

(** The canonical schema. *)
Definition CANONICAL : list string :=
  [ "YEAR"; "MONTH"; "SUPPLIER"; "ITEM_CODE"; "ITEM_DESCRIPTION"; "ITEM_TYPE";
    "RETAIL_SALES"; "RETAIL_TRANSFERS"; "WAREHOUSE_SALES" ].

(** The three measures. *)
Definition MEASURES : list string :=
  [ "RETAIL_SALES"; "RETAIL_TRANSFERS"; "WAREHOUSE_SALES" ].

(** The canonical name of a stripped, upper-case label. *)
Definition canonical_name (c : string) : string :=
  foldr (fun '(old, new) rest => if decide (c = old) then new else rest) c RENAME_MAP.

(** Apply [f l] to the cell under the label [l], for every label. *)
Fixpoint map_labelled (f : string → cell → cell) (cols : list string)
    (r : list cell) : list cell :=
  match cols, r with
  | l :: cols', x :: r' => f l x :: map_labelled f cols' r'
  | _, _ => r
  end.

Definition map_cells (f : string → cell → cell) (df : DataFrame) : DataFrame :=
  mkDF (columns df) (map_labelled f (columns df) <$> rows df).

(** What cleaning does to the cell under the label [l]. *)
Definition clean_cell (l : string) (x : cell) : cell :=
  if bool_decide (l ∈ MEASURES) then fillna0 (to_numeric x) else x.

(** The number that cleaning leaves in a cell of a measure: the number
    itself, the number a text parses to, and 0 for a missing cell or a
    text that does not parse. *)
Definition cleaned_value (x : cell) : Qc :=
  match x with
  | NA => 0%Qc
  | Num q => q
  | Str s => default 0%Qc (to_numeric_text s)
  end.

(** A cell that [astype("Int64")] leaves: missing, or an integer. *)
Definition int_or_na (x : cell) : Prop :=
  x = NA ∨ ∃ z, x = Num (Qc_of_Z z).

(** The number in a cell of a numeric column; a missing cell adds
    nothing to a sum. *)
Definition value_of (x : cell) : Qc :=
  match x with Num q => q | _ => 0%Qc end.

(** The sum of a column over all rows. *)
Definition column_sum (df : DataFrame) (c : string) : Qc :=
  sum_Qc (value_of <$> column df c).

(** A measure column, where there is one, is a single column of numbers:
    what [preprocess] returns and the filters keep. *)
Definition measure_ok (df : DataFrame) (c : string) : Prop :=
  col_count c (columns df) ≤ 1
  ∧ (c ∈ columns df → Forall (fun x => is_num x) (column df c)).

#[global] Instance measure_ok_dec df c : Decision (measure_ok df c).
Proof. unfold measure_ok. apply _. Defined.

(** The test of one dimension of the selection on the string form
    ([SUPPLIER], [ITEM_TYPE]) or the number ([YEAR]) of a cell: an empty
    selection passes everything. *)
Definition passes {A} (sel : list A) (test : list A → cell → bool) (x : cell) : bool :=
  if truthy sel then test sel x else true.

(** A row passes the filters when it passes in each dimension. *)
Definition row_passes (cols : list string) (sel : Selection) (r : list cell) : bool :=
  passes (year_sel sel) isin_years (row_get "YEAR" cols r)
  && passes (supplier_sel sel) isin_texts (row_get "SUPPLIER" cols r)
  && passes (type_sel sel) isin_texts (row_get "ITEM_TYPE" cols r).

(** The numbers of RETAIL_SALES in the rows with the key [k], and their
    sum. *)
Definition group_values (df : DataFrame) (k : cell) : list Qc :=
  value_of <$> boolean_index ((fun x => bool_decide (x = k)) <$> column df "MONTH_YEAR")
                             (column df "RETAIL_SALES").

Definition group_sum (df : DataFrame) (k : cell) : Qc := sum_Qc (group_values df k).

(** The distinct MONTH_YEAR values that are present. *)
Definition periods (df : DataFrame) : list cell :=
  unique (filter (fun x => negb (isna x)) (column df "MONTH_YEAR")).

(** *** Loading the default file (lines 53-60) and the raw table
    (lines 129-137)

    The files are a parameter: [read_csv path] is the table that
    [pd.read_csv] reads at [path], or the exception it raises. *)

Definition DEFAULT_CSV : string := "cleaned_warehouse_and_retail_sales.csv".

Definition FALLBACK_CSV : string :=
  "E:\projects for core statistics in data science\sales_performance_dashboard\Warehouse_and_Retail_Sales.csv".

Definition load_default_data (read_csv : string → result DataFrame)
    : result DataFrame :=
  df ← match read_csv DEFAULT_CSV with
       | Ok df => Ok df
       | Raise _ => read_csv FALLBACK_CSV
       end;
  Ok (standardize_columns df).

(** [None] is [st.stop()]: the script ends there, with no table and no
    exception. *)
Definition data_input (read_csv : string → result DataFrame) (use_upload : bool)
    (uploaded : option string) : result (option DataFrame) :=
  if use_upload then
    match uploaded with
    | Some f => Some <$> read_csv f
    | None => Ok None
    end
  else Some <$> load_default_data read_csv.

(** Lines 129-140: the table [_df] on which the rest of the script works,
    or [None] when the script has stopped. *)
Definition preprocessed_input (read_csv : string → result DataFrame)
    (use_upload : bool) (uploaded : option string) : result (option DataFrame) :=
  raw ← data_input read_csv use_upload uploaded;
  match raw with
  | Some raw => Some <$> preprocess raw
  | None => Ok None
  end.

(** *** The third chart: the ten best-selling items (lines 235-241) *)

(** [groupby(key, as_index=False)[value].sum()] on a key column of texts:
    one row for each distinct key, in ascending order of the key. *)
Definition groupby_sum_sorted (keys : list string) (vals : list cell)
    : result (list (string * Qc)) :=
  mapM (fun k =>
          t ← sum_cells grouped_sum
                (boolean_index ((fun x => bool_decide (x = k)) <$> keys) vals);
          Ok (k, t))
       (sorted_texts (unique keys)).

(** [sort_values(value, ascending=False)], stable: of two rows with the
    same value the one that came first stays first. *)
Fixpoint insert_desc (x : string * Qc) (l : list (string * Qc))
    : list (string * Qc) :=
  match l with
  | [] => [x]
  | y :: l' => if decide (x.2 < y.2)%Qc then y :: insert_desc x l' else x :: l
  end.

Definition sort_desc (l : list (string * Qc)) : list (string * Qc) :=
  foldr insert_desc [] l.

(** [nlargest(n, value)] with the default [keep="first"]. *)
Definition nlargest (n : nat) (l : list (string * Qc)) : list (string * Qc) :=
  take n (sort_desc l).

(** Lines 235-241; [None] when the chart is skipped. *)
Definition top_items (filtered : DataFrame) : result (option (list (string * Qc))) :=
  filtered ← item_labels filtered;
  if has_col "ITEM_DESCRIPTION" (columns filtered) then
    keys ← getitem ValueError filtered "ITEM_DESCRIPTION";
    vals ← getitem TypeError filtered "RETAIL_SALES";
    sums ← groupby_sum_sorted (astype_str <$> keys) vals;
    Ok (Some (nlargest 10 sums))
  else Ok None.

(** The sum of RETAIL_SALES over the rows whose ITEM_DESCRIPTION reads
    [k]. *)
Definition item_sum (df : DataFrame) (k : string) : Qc :=
  sum_Qc
    (value_of <$> boolean_index
       ((fun x => bool_decide (astype_str x = k)) <$> column df "ITEM_DESCRIPTION")
       (column df "RETAIL_SALES")).

(** * Properties *)

(** ** Labels *)

Lemma is_space_upper a : is_space (upper_ascii a) = is_space a.
Proof. by destruct a as [[] [] [] [] [] [] [] []]. Qed.

Lemma upper_ascii_idem a : upper_ascii (upper_ascii a) = upper_ascii a.
Proof. by destruct a as [[] [] [] [] [] [] [] []]. Qed.

Lemma upper_idem s : upper (upper s) = upper s.
Proof. induction s as [|a s IH]; simpl; [done|]. by rewrite upper_ascii_idem, IH. Qed.

Lemma lstrip_upper s : lstrip (upper s) = upper (lstrip s).
Proof.
  induction s as [|a s IH]; simpl; [done|].
  rewrite is_space_upper. by destruct (is_space a).
Qed.

Lemma rstrip_upper s : rstrip (upper s) = upper (rstrip s).
Proof.
  induction s as [|a s IH]; simpl; [done|].
  rewrite IH, is_space_upper.
  destruct (rstrip s); simpl; [by destruct (is_space a)|done].
Qed.

Lemma strip_upper s : strip (upper s) = upper (strip s).
Proof. unfold strip. by rewrite lstrip_upper, rstrip_upper. Qed.

Lemma lstrip_idem s : lstrip (lstrip s) = lstrip s.
Proof.
  induction s as [|a s IH]; simpl; [done|].
  destruct (is_space a) eqn:E; [done|]. simpl. by rewrite E.
Qed.

Lemma rstrip_idem s : rstrip (rstrip s) = rstrip s.
Proof.
  induction s as [|a s IH]; simpl; [done|].
  destruct (rstrip s) as [|b t] eqn:E.
  - destruct (is_space a) eqn:Ea; simpl; [done|]. by rewrite Ea.
  - change (rstrip (String a (String b t))) with
      (match rstrip (String b t) with
       | EmptyString => if is_space a then EmptyString else String a EmptyString
       | u => String a u
       end).
    by rewrite IH.
Qed.

Lemma lstrip_rstrip s : lstrip (rstrip s) = rstrip (lstrip s).
Proof.
  induction s as [|a s IH]; [done|].
  change (lstrip (String a s)) with (if is_space a then lstrip s else String a s).
  change (rstrip (String a s)) with
    (match rstrip s with
     | EmptyString => if is_space a then EmptyString else String a EmptyString
     | u => String a u
     end).
  destruct (is_space a) eqn:Ea.
  - rewrite <- IH. destruct (rstrip s); simpl; [done|]. by rewrite Ea.
  - simpl. destruct (rstrip s); simpl; by rewrite Ea.
Qed.

Lemma strip_idem s : strip (strip s) = strip s.
Proof.
  unfold strip. by rewrite lstrip_rstrip, lstrip_idem, rstrip_idem.
Qed.

(** A stripped, upper-case label is not changed by stripping and
    upper-casing it again. *)
Lemma normal_label_idem c : upper (strip (upper (strip c))) = upper (strip c).
Proof. by rewrite strip_upper, strip_idem, upper_idem. Qed.

Lemma rename_label_absent old new cols :
  old ∉ cols → rename_label old new cols = cols.
Proof.
  intros H. unfold rename_label. rewrite <- (list_fmap_id cols) at 2.
  apply list_fmap_ext. intros i c Hc. simpl.
  rewrite decide_False; [done|]. intros ->. apply H.
  by eapply list_elem_of_lookup_2.
Qed.

Lemma rename_step old new cols :
  (if has_col old cols then rename_label old new cols else cols)
  = rename_label old new cols.
Proof.
  unfold has_col. case_bool_decide; [done|]. by rewrite rename_label_absent.
Qed.

(** The loop over RENAME_MAP renames every label at once. *)
Lemma standardize_labels_eq cols :
  standardize_labels cols = (fun c => canonical_name (upper (strip c))) <$> cols.
Proof.
  unfold standardize_labels, RENAME_MAP. simpl. rewrite !rename_step.
  unfold rename_label. rewrite <- !list_fmap_compose.
  apply list_fmap_ext. intros _ c _. simpl.
  generalize (upper (strip c)). clear c. intros c.
  unfold canonical_name. simpl.
  repeat (case_decide; subst; try done).
Qed.

Lemma canonical_name_cases c :
  canonical_name c ∈ CANONICAL ∨ (canonical_name c = c ∧ c ∉ RENAME_MAP.*1).
Proof.
  unfold canonical_name. simpl.
  repeat (case_decide; [left; subst; by_compute|]).
  right. split; [done|].
  rewrite !not_elem_of_cons. repeat split; try done. apply not_elem_of_nil.
Qed.

Lemma canonical_name_normal c :
  canonical_name (upper (strip (canonical_name (upper (strip c)))))
  = canonical_name (upper (strip c)).
Proof.
  assert (H : upper (strip (upper (strip c))) = upper (strip c))
    by apply normal_label_idem.
  revert H. generalize (upper (strip c)). clear c. intros c Hc.
  unfold canonical_name at 2 3. simpl.
  repeat (case_decide; [by vm_compute|]).
  rewrite Hc. unfold canonical_name. simpl.
  by rewrite !decide_False by done.
Qed.

(** C8. For every input table, the column names that
    [standardize_columns] leaves are names of the canonical schema or
    the stripped, upper-case form of an input name that the rename
    table does not list; the rows are not touched; and standardizing a
    second time changes nothing. *)
Theorem standardize_columns_spec (df : DataFrame) :
  Forall (fun n => n ∈ CANONICAL
                   ∨ ∃ c, c ∈ columns df ∧ n = upper (strip c) ∧ n ∉ RENAME_MAP.*1)
         (columns (standardize_columns df))
  ∧ rows (standardize_columns df) = rows df
  ∧ standardize_columns (standardize_columns df) = standardize_columns df.
Proof.
  split; [|split]; [|done|].
  - simpl. rewrite standardize_labels_eq. apply Forall_fmap, Forall_forall.
    intros c Hc. simpl.
    destruct (canonical_name_cases (upper (strip c))) as [?|[-> ?]]; [by left|].
    right. by exists c.
  - unfold standardize_columns. simpl. f_equal.
    rewrite !standardize_labels_eq, <- list_fmap_compose.
    apply list_fmap_ext. intros _ c _. simpl. apply canonical_name_normal.
Qed.


(** ** Cells under a label *)

Lemma col_count_cons c l cols :
  col_count c (l :: cols)
  = if decide (l = c) then S (col_count c cols) else col_count c cols.
Proof. unfold col_count. rewrite filter_cons. by case_decide. Qed.

Lemma col_count_absent c cols : c ∉ cols ↔ col_count c cols = 0.
Proof.
  induction cols as [|l cols IH]; [by split; [|intros _; apply not_elem_of_nil]|].
  rewrite col_count_cons, not_elem_of_cons, IH. case_decide; subst.
  - split; [by intros [? _]|done].
  - split; [by intros [_ ?]|]. intros ?. split; [congruence|done].
Qed.

Lemma has_col_count c cols : has_col c cols = false ↔ col_count c cols = 0.
Proof.
  unfold has_col. rewrite <- col_count_absent. by rewrite bool_decide_eq_false.
Qed.

Lemma has_col_true c cols : has_col c cols = true ↔ c ∈ cols.
Proof. unfold has_col. by rewrite bool_decide_eq_true. Qed.

Lemma map_at_labelled c f cols r :
  map_at c f cols r
  = map_labelled (fun l x => if decide (l = c) then f x else x) cols r.
Proof.
  revert r. induction cols as [|l cols IH]; intros [|x r]; simpl; try done.
  by rewrite IH.
Qed.

Lemma map_labelled_compose f g cols r :
  map_labelled f cols (map_labelled g cols r)
  = map_labelled (fun l x => f l (g l x)) cols r.
Proof.
  revert r. induction cols as [|l cols IH]; intros [|x r]; simpl; try done.
  by rewrite IH.
Qed.

Lemma map_labelled_ext f g cols r :
  (∀ l x, l ∈ cols → f l x = g l x) →
  map_labelled f cols r = map_labelled g cols r.
Proof.
  revert r. induction cols as [|l cols IH]; intros [|x r] H; simpl; try done.
  rewrite H by left. f_equal. apply IH. intros. apply H. by right.
Qed.

Lemma map_labelled_id cols r : map_labelled (fun _ x => x) cols r = r.
Proof.
  revert r. induction cols as [|l cols IH]; intros [|x r]; simpl; try done.
  by rewrite IH.
Qed.

Lemma length_map_labelled f cols r : length (map_labelled f cols r) = length r.
Proof.
  revert r. induction cols as [|l cols IH]; intros [|x r]; simpl; try done.
  by rewrite IH.
Qed.

(** In a full row the cell under a label that exists is found, and a
    cell-wise update is seen there. *)
Lemma row_get_map_labelled c f cols r :
  length r = length cols → c ∈ cols →
  row_get c cols (map_labelled f cols r) = f c (row_get c cols r).
Proof.
  revert r. induction cols as [|l cols IH]; intros [|x r] Hlen Hc; simpl in *;
    try done.
  - by apply elem_of_nil in Hc.
  - case_decide; subst; [done|].
    apply IH; [lia|]. apply elem_of_cons in Hc as [?|?]; [by subst|done].
Qed.

Lemma map_col_cells c f df :
  map_col c f df = map_cells (fun l x => if decide (l = c) then f x else x) df.
Proof.
  unfold map_col, map_cells. f_equal. apply list_fmap_ext. intros _ r _.
  apply map_at_labelled.
Qed.

Lemma map_cells_compose f g df :
  map_cells f (map_cells g df) = map_cells (fun l x => f l (g l x)) df.
Proof.
  unfold map_cells. simpl. f_equal. rewrite <- list_fmap_compose.
  apply list_fmap_ext. intros _ r _. apply map_labelled_compose.
Qed.

Lemma map_cells_ext f g df :
  (∀ l x, l ∈ columns df → f l x = g l x) → map_cells f df = map_cells g df.
Proof.
  intros H. unfold map_cells. f_equal. apply list_fmap_ext. intros _ r _.
  by apply map_labelled_ext.
Qed.

Lemma map_cells_id df : map_cells (fun _ x => x) df = df.
Proof.
  destruct df as [cols rs]. unfold map_cells. simpl. f_equal.
  rewrite <- (list_fmap_id rs) at 2. apply list_fmap_ext. intros _ r _.
  apply map_labelled_id.
Qed.

Lemma well_formed_map_cells f df : well_formed df → well_formed (map_cells f df).
Proof.
  unfold well_formed, map_cells. simpl. intros H. apply Forall_fmap.
  eapply Forall_impl; [done|]. intros r Hr. simpl. by rewrite length_map_labelled.
Qed.

Lemma column_map_cells c f df :
  well_formed df → c ∈ columns df →
  column (map_cells f df) c = f c <$> column df c.
Proof.
  intros Hwf Hc. unfold column, map_cells. simpl. rewrite <- !list_fmap_compose.
  apply list_fmap_ext. intros i r Hr. simpl.
  apply row_get_map_labelled; [|done].
  unfold well_formed in Hwf. rewrite Forall_lookup in Hwf. by eapply Hwf.
Qed.

(** ** Cleaning *)

Lemma legacy_not_canonical : Forall (fun k => k ∉ CANONICAL) RENAME_MAP.*1.
Proof. by_compute. Qed.

(** No legacy label is left after standardisation. *)
Lemma standardized_no_legacy cols old :
  old ∈ RENAME_MAP.*1 → old ∉ standardize_labels cols.
Proof.
  intros Hold Hin. rewrite standardize_labels_eq in Hin.
  apply list_elem_of_fmap in Hin as (c & -> & _).
  destruct (canonical_name_cases (upper (strip c))) as [H|[H1 H2]].
  - pose proof legacy_not_canonical as HF. rewrite Forall_forall in HF.
    by apply (HF _ Hold).
  - rewrite H1 in Hold. by apply H2.
Qed.

Lemma ensure_numeric_absent c df :
  c ∉ columns df → ensure_numeric c df = Ok df.
Proof.
  intros H. unfold ensure_numeric.
  by rewrite (proj2 (has_col_count _ _)) by by apply col_count_absent.
Qed.

Lemma getitem_once e df c :
  c ∈ columns df → col_count c (columns df) ≤ 1 → getitem e df c = Ok (column df c).
Proof.
  intros Hin Hle. unfold getitem.
  destruct (col_count c (columns df)) as [|[|n]] eqn:E; [|done|lia].
  by apply col_count_absent in E.
Qed.

Lemma ensure_numeric_once c df :
  col_count c (columns df) ≤ 1 →
  ensure_numeric c df
  = Ok (map_cells (fun l x => if decide (l = c) then to_numeric x else x) df).
Proof.
  intros H. unfold ensure_numeric. destruct (has_col c (columns df)) eqn:E.
  - apply has_col_true in E. rewrite getitem_once by done. simpl.
    by rewrite map_col_cells.
  - rewrite <- (map_cells_id df) at 1. f_equal. apply map_cells_ext.
    intros l x Hl. rewrite decide_False; [done|]. intros ->.
    apply has_col_count, col_count_absent in E. done.
Qed.

Lemma update_if_present_cells f c df :
  update_if_present f c df
  = map_cells (fun l x => if decide (l = c) then f x else x) df.
Proof.
  unfold update_if_present. destruct (has_col c (columns df)) eqn:E.
  - by rewrite map_col_cells.
  - rewrite <- (map_cells_id df) at 1. apply map_cells_ext.
    intros l x Hl. rewrite decide_False; [done|]. intros ->.
    apply has_col_count, col_count_absent in E. done.
Qed.

Lemma coalesce_absent old new df : old ∉ columns df → coalesce old new df = df.
Proof.
  intros H. unfold coalesce.
  by rewrite (proj2 (has_col_count _ _)) by by apply col_count_absent.
Qed.

(** On standardized labels of which no measure occurs twice, lines 72-92
    change exactly the cells under the three measures. *)
Lemma coerce_and_fill_cells df :
  (∀ old, old ∈ RENAME_MAP.*1 → old ∉ columns df) →
  (∀ c, c ∈ MEASURES → col_count c (columns df) ≤ 1) →
  coerce_and_fill df = Ok (map_cells clean_cell df).
Proof.
  intros Hold Hm. unfold coerce_and_fill, NUMERIC_COLS. cbn [for_each].
  assert (∀ f, columns (map_cells f df) = columns df) as Hcols by done.
  repeat
    (first
       [ rewrite ensure_numeric_absent
           by (rewrite ?Hcols; apply Hold; by_compute)
       | rewrite ensure_numeric_once
           by (rewrite ?Hcols; apply Hm; by_compute) ];
     cbn [mbind result_bind]; rewrite ?map_cells_compose).
  rewrite (coalesce_absent "RETAIL SALES"),
    (coalesce_absent "RETAIL TRANSFERS"), (coalesce_absent "WAREHOUSE SALES")
    by (rewrite ?Hcols; apply Hold; by_compute).
  cbn [foldl]. rewrite !update_if_present_cells, !map_cells_compose.
  f_equal. apply map_cells_ext. intros l x _.
  unfold clean_cell, MEASURES, astype_category.
  repeat (case_decide; subst; try done).
  exfalso.
  match goal with
  | H : _ ∈ _ |- _ =>
      repeat (apply elem_of_cons in H as [?|H]; [done|]); by apply elem_of_nil in H
  end.
Qed.

Lemma clean_cell_measure l x :
  l ∈ MEASURES → clean_cell l x = Num (cleaned_value x).
Proof.
  intros H. unfold clean_cell. rewrite bool_decide_eq_true_2 by done.
  destruct x as [|q|s]; simpl; try done. by destruct (to_numeric_text s).
Qed.

Lemma well_formed_standardize df : well_formed df → well_formed (standardize_columns df).
Proof.
  unfold well_formed. simpl. intros H. eapply Forall_impl; [done|].
  intros r Hr. simpl in *. rewrite standardize_labels_eq. by rewrite length_fmap.
Qed.

(** C2. For every input table (with one cell per label in each row)
    whose measure labels are not duplicated by standardisation,
    cleaning returns a table and raises nothing, whatever the cells
    hold; every cell of RETAIL_SALES, RETAIL_TRANSFERS and
    WAREHOUSE_SALES in it is a number: 0 for a missing cell and for a
    text that does not parse, the parsed number for a text that does,
    and a number, negative or not, unchanged. *)
Theorem clean_measures (df : DataFrame) :
  well_formed df →
  Forall (fun c => col_count c (standardize_labels (columns df)) ≤ 1) MEASURES →
  ∃ out, clean df = Ok out
    ∧ columns out = standardize_labels (columns df)
    ∧ length (rows out) = length (rows df)
    ∧ ∀ c, c ∈ MEASURES → c ∈ columns out →
        column out c = (fun x => Num (cleaned_value x)) <$> column (standardize_columns df) c
        ∧ Forall (fun x => isna x = false) (column out c).
Proof.
  intros Hwf Hm. rewrite Forall_forall in Hm.
  exists (map_cells clean_cell (standardize_columns df)).
  split; [|split; [done|split]].
  - unfold clean. apply coerce_and_fill_cells; [|done].
    intros old Hold. by apply standardized_no_legacy.
  - simpl. by rewrite length_fmap.
  - intros c Hc Hin.
    rewrite column_map_cells by (by try apply well_formed_standardize).
    assert (clean_cell c <$> column (standardize_columns df) c
            = (fun x => Num (cleaned_value x)) <$> column (standardize_columns df) c) as ->.
    { apply list_fmap_ext. intros _ x _. by apply clean_cell_measure. }
    split; [done|]. by apply Forall_fmap, Forall_true.
Qed.

(** ** Exceptions in loops *)

Lemma mapM_Ok {A B} (f : A → result B) l k :
  mapM f l = Ok k ↔ Forall2 (fun x y => f x = Ok y) l k.
Proof.
  revert k. induction l as [|x l IH]; intros k; simpl.
  - split; [intros [= <-]; constructor|by inversion 1].
  - split.
    + destruct (f x) as [y|] eqn:E; simpl; [|done].
      destruct (mapM f l) as [k'|] eqn:E'; simpl; [|done].
      intros [= <-]. constructor; [done|]. by apply IH.
    + inversion 1 as [|? y ? k' Hy Hk]; subst. rewrite Hy. simpl.
      apply IH in Hk. rewrite Hk. done.
Qed.

Lemma mapM_total {A B} (f : A → result B) (g : A → B) l :
  Forall (fun x => f x = Ok (g x)) l → mapM f l = Ok (g <$> l).
Proof.
  intros H. apply mapM_Ok. induction H; simpl; by constructor.
Qed.

(** ** Selecting rows *)

Lemma boolean_index_fmap {A} (f : A → bool) (l : list A) :
  boolean_index (f <$> l) l = filter (fun x => f x) l.
Proof.
  induction l as [|x l IH]; csimpl; [done|].
  rewrite filter_cons, IH. destruct (f x); by case_decide.
Qed.

Lemma keep_where_rows c test df :
  col_count c (columns df) = 1 →
  keep_where c test df
  = Ok (mkDF (columns df)
             (filter (fun r => test (row_get c (columns df) r)) (rows df))).
Proof.
  intros H. unfold keep_where, getitem. rewrite H. simpl. do 2 f_equal.
  unfold column. rewrite <- list_fmap_compose. apply boolean_index_fmap.
Qed.

Lemma filter_all {A} (P : A → Prop) `{∀ x, Decision (P x)} (l : list A) :
  Forall P l → filter P l = l.
Proof.
  induction 1 as [|x l Hx Hl IH]; [done|].
  rewrite filter_cons, IH. by rewrite decide_True.
Qed.

(** ** The sidebar *)

Lemma years_inv df ys :
  years df = Ok ys →
  (("YEAR" ∉ columns df) ∧ ys = [])
  ∨ (col_count "YEAR" (columns df) = 1
     ∧ ∃ l, mapM int_of (unique (filter (fun x => negb (isna x)) (column df "YEAR"))) = Ok l
            ∧ ys = sorted_ints l).
Proof.
  unfold years, getitem. destruct (has_col "YEAR" (columns df)) eqn:E.
  - destruct (col_count "YEAR" (columns df)) as [|[|n]] eqn:Ec; simpl; try done.
    destruct (mapM _ _) as [l|] eqn:El; simpl; [|done].
    intros [= <-]. right. split; [done|]. by exists l.
  - intros [= <-]. left. split; [|done].
    by apply col_count_absent, has_col_count.
Qed.

Lemma text_options_inv c df ss :
  text_options c df = Ok ss →
  ((c ∉ columns df) ∧ ss = [])
  ∨ (col_count c (columns df) = 1
     ∧ ss = sorted_texts (unique (astype_str <$> column df c))).
Proof.
  unfold text_options, getitem. destruct (has_col c (columns df)) eqn:E.
  - destruct (col_count c (columns df)) as [|[|n]] eqn:Ec; simpl; try done.
    intros [= <-]. by right.
  - intros [= <-]. left. split; [|done].
    by apply col_count_absent, has_col_count.
Qed.

Lemma sidebar_options_inv df o :
  sidebar_options df = Ok o →
  years df = Ok (year_sel o)
  ∧ text_options "SUPPLIER" df = Ok (supplier_sel o)
  ∧ text_options "ITEM_TYPE" df = Ok (type_sel o).
Proof.
  unfold sidebar_options.
  destruct (years df) as [ys|]; simpl; [|done].
  destruct (text_options "SUPPLIER" df) as [ss|]; simpl; [|done].
  destruct (text_options "ITEM_TYPE" df) as [ts|]; simpl; [|done].
  by intros [= <-].
Qed.

Lemma truthy_subseteq_nil {A} (l : list A) : l ⊆ [] → truthy l = false.
Proof.
  destruct l as [|x l]; [done|]. intros H.
  exfalso. by eapply not_elem_of_nil, H, list_elem_of_here.
Qed.

(** ** The filters *)

(** The three filters in a row keep the rows that pass all three tests. *)
Lemma apply_filters_rows df sel :
  offered df sel →
  apply_filters df sel
  = Ok (mkDF (columns df) (filter (fun r => row_passes (columns df) sel r) (rows df))).
Proof.
  intros (o & Ho & Hy & Hs & Ht).
  apply sidebar_options_inv in Ho as (Hyo & Hso & Hto).
  apply years_inv in Hyo. apply text_options_inv in Hso. apply text_options_inv in Hto.
  unfold apply_filters.
  assert (∃ p1 : list cell → bool,
    (if truthy (year_sel sel)
     then keep_where "YEAR" (isin_years (year_sel sel)) df else Ok df)
    = Ok (mkDF (columns df) (filter (fun r => p1 r) (rows df)))
    ∧ ∀ r, p1 r = passes (year_sel sel) isin_years (row_get "YEAR" (columns df) r))
    as (p1 & -> & H1).
  { unfold passes. destruct (truthy (year_sel sel)) eqn:E.
    - destruct Hyo as [[_ Hn]|[Hc _]].
      + rewrite Hn in Hy. apply truthy_subseteq_nil in Hy. congruence.
      + rewrite keep_where_rows by done. by eexists.
    - exists (fun _ => true). split; [|done].
      rewrite filter_all by (by apply Forall_true). by destruct df. }
  cbn [mbind result_bind columns].
  assert (∃ p2 : list cell → bool,
    ∀ rs, (if truthy (supplier_sel sel) && has_col "SUPPLIER" (columns df)
     then keep_where "SUPPLIER" (isin_texts (supplier_sel sel)) (mkDF (columns df) rs)
     else Ok (mkDF (columns df) rs))
    = Ok (mkDF (columns df) (filter (fun r => p2 r) rs))
    ∧ ∀ r, p2 r = passes (supplier_sel sel) isin_texts (row_get "SUPPLIER" (columns df) r))
    as (p2 & H2).
  { unfold passes. destruct (truthy (supplier_sel sel)) eqn:E.
    - destruct Hso as [[_ Hn]|[Hc _]].
      + rewrite Hn in Hs. apply truthy_subseteq_nil in Hs. congruence.
      + assert (has_col "SUPPLIER" (columns df) = true) as ->.
        { apply has_col_true, dec_stable. intros ?%col_count_absent. lia. }
        exists (fun r => isin_texts (supplier_sel sel) (row_get "SUPPLIER" (columns df) r)).
        intros rs. by rewrite keep_where_rows by done.
    - exists (fun _ => true). intros rs. split; [|done].
      by rewrite filter_all by (by apply Forall_true). }
  destruct (H2 (filter (fun r => p1 r) (rows df))) as [-> H2'].
  cbn [mbind result_bind columns].
  assert (∃ p3 : list cell → bool,
    ∀ rs, (if truthy (type_sel sel) && has_col "ITEM_TYPE" (columns df)
     then keep_where "ITEM_TYPE" (isin_texts (type_sel sel)) (mkDF (columns df) rs)
     else Ok (mkDF (columns df) rs))
    = Ok (mkDF (columns df) (filter (fun r => p3 r) rs))
    ∧ ∀ r, p3 r = passes (type_sel sel) isin_texts (row_get "ITEM_TYPE" (columns df) r))
    as (p3 & H3).
  { unfold passes. destruct (truthy (type_sel sel)) eqn:E.
    - destruct Hto as [[_ Hn]|[Hc _]].
      + rewrite Hn in Ht. apply truthy_subseteq_nil in Ht. congruence.
      + assert (has_col "ITEM_TYPE" (columns df) = true) as ->.
        { apply has_col_true, dec_stable. intros ?%col_count_absent. lia. }
        exists (fun r => isin_texts (type_sel sel) (row_get "ITEM_TYPE" (columns df) r)).
        intros rs. by rewrite keep_where_rows by done.
    - exists (fun _ => true). intros rs. split; [|done].
      by rewrite filter_all by (by apply Forall_true). }
  destruct (H3 (filter (fun r => p2 r) (filter (fun r => p1 r) (rows df)))) as [-> H3'].
  cbn [mbind result_bind]. do 2 f_equal.
  rewrite !list_filter_filter. apply list_filter_iff. intros r.
  unfold row_passes. rewrite <- H1, <- H2', <- H3'.
  destruct (p1 r), (p2 r), (p3 r); simpl; tauto.
Qed.

Lemma passes_spec {A} (l : list A) test x :
  passes l test x ↔ l = [] ∨ test l x.
Proof.
  unfold passes. destruct l as [|y l]; simpl.
  - split; [by left|done].
  - split; [by right|]. by intros [?|?].
Qed.

Lemma isin_years_spec ys x :
  isin_years ys x ↔ ∃ y, x = Num (Qc_of_Z y) ∧ y ∈ ys.
Proof.
  destruct x as [|q|t]; simpl.
  - split; [done|]. by intros (y & ? & _).
  - rewrite bool_decide_spec, list_elem_of_fmap. split.
    + intros (y & -> & Hy). by exists y.
    + intros (y & [= ->] & Hy). by exists y.
  - split; [done|]. by intros (y & ? & _).
Qed.

(** C4. For every table and every selection that the sidebar offers
    for it, the filters return the table of the same columns whose rows
    are exactly the rows that pass in each dimension, in their original
    order; a row passes in a dimension when the selection of that
    dimension is empty or holds the value of the row (YEAR is a number
    equal to a selected integer, the string form of SUPPLIER and of
    ITEM_TYPE is a selected string), and the three tests are joined by
    "and". *)
Theorem apply_filters_spec (df : DataFrame) (sel : Selection) :
  offered df sel →
  ∃ out, apply_filters df sel = Ok out
    ∧ columns out = columns df
    ∧ rows out = filter (fun r => row_passes (columns df) sel r) (rows df)
    ∧ sublist (rows out) (rows df)
    ∧ ∀ r, row_passes (columns df) sel r ↔
           (year_sel sel = []
            ∨ ∃ y, row_get "YEAR" (columns df) r = Num (Qc_of_Z y) ∧ y ∈ year_sel sel)
           ∧ (supplier_sel sel = []
              ∨ astype_str (row_get "SUPPLIER" (columns df) r) ∈ supplier_sel sel)
           ∧ (type_sel sel = []
              ∨ astype_str (row_get "ITEM_TYPE" (columns df) r) ∈ type_sel sel).
Proof.
  intros H. eexists. split; [by apply apply_filters_rows|].
  split; [done|]. split; [done|]. split; [apply sublist_filter|].
  intros r. unfold row_passes. rewrite !andb_True, !passes_spec.
  rewrite isin_years_spec. unfold isin_texts. rewrite !bool_decide_spec. tauto.
Qed.

(** ** Sums *)

Lemma numbers_numeric s :
  Forall (fun x => is_num x) s → numbers s = Ok (value_of <$> s).
Proof.
  induction 1 as [|x s Hx Hs IH]; [done|].
  destruct x as [|q|t]; try done. csimpl. by rewrite IH.
Qed.

Lemma sum_cells_numeric add s :
  Forall (fun x => is_num x) s → sum_cells add s = Ok (add (value_of <$> s)).
Proof. intros H. unfold sum_cells. by rewrite numbers_numeric. Qed.

Lemma sum_Qc_zero {A} (l : list A) : sum_Qc ((fun _ => 0%Qc) <$> l) = 0%Qc.
Proof.
  induction l as [|x l IH]; [done|]. csimpl. unfold sum_Qc in *. simpl.
  by rewrite IH, Qcplus_0_l.
Qed.

Lemma row_get_absent c cols r : c ∉ cols → row_get c cols r = NA.
Proof.
  revert r. induction cols as [|l cols IH]; intros [|x r] H; simpl; try done.
  apply not_elem_of_cons in H as [? ?]. rewrite decide_False by done. by apply IH.
Qed.

Lemma column_sum_absent df c : c ∉ columns df → column_sum df c = 0%Qc.
Proof.
  intros H. unfold column_sum, column. rewrite <- list_fmap_compose.
  rewrite <- (sum_Qc_zero (rows df)). f_equal. apply list_fmap_ext.
  intros _ r _. simpl. by rewrite row_get_absent.
Qed.

Lemma small_integers_nil : small_integers [].
Proof. split; [constructor|]. by vm_compute. Qed.

(** The value of one "Total" KPI: the sum that pandas computes of the
    numbers of the column in all rows. *)
Lemma total_present df c :
  measure_ok df c → c ∈ columns df →
  total df c = Ok (series_sum c (value_of <$> column df c)).
Proof.
  intros [Hc Hn] Hin. unfold total.
  rewrite (proj2 (has_col_true _ _)) by done.
  rewrite getitem_once by done. cbn [mbind result_bind].
  by apply sum_cells_numeric, Hn.
Qed.

Lemma total_absent df c : c ∉ columns df → total df c = Ok 0%Qc.
Proof.
  intros H. unfold total.
  by rewrite (proj2 (has_col_count _ _)) by by apply col_count_absent.
Qed.

Lemma total_column_sum df c :
  measure_ok df c → exact_sum (series_sum c) →
  small_integers (value_of <$> column df c) →
  total df c = Ok (column_sum df c).
Proof.
  intros Hm He Hs. destruct (decide (c ∈ columns df)) as [Hin|Hin].
  - rewrite total_present by done. by rewrite He.
  - by rewrite total_absent, column_sum_absent.
Qed.

(** C6, amended. For every filtered table (each measure, where present,
    a single column of numbers), each of the three totals is the sum
    that pandas computes of the numbers of its column in all rows; it is
    the sum of the column whenever the column holds integers whose
    magnitudes add up to at most 2^53, it is 0 when the table has no
    rows, and it is 0 when the table lacks the column.  [kpi_block]
    returns these three values under the three "Total" names whenever
    it returns, which is when the average does. *)
Theorem totals_spec (df : DataFrame) :
  Forall (measure_ok df) MEASURES →
  (∀ c, exact_sum (series_sum c)) →
  (∀ c, c ∈ MEASURES →
     (c ∈ columns df → total df c = Ok (series_sum c (value_of <$> column df c)))
     ∧ (small_integers (value_of <$> column df c) → total df c = Ok (column_sum df c))
     ∧ (rows df = [] → total df c = Ok 0%Qc)
     ∧ (c ∉ columns df → total df c = Ok 0%Qc))
  ∧ ∃ trs trt tws,
      total df "RETAIL_SALES" = Ok trs
      ∧ total df "RETAIL_TRANSFERS" = Ok trt
      ∧ total df "WAREHOUSE_SALES" = Ok tws
      ∧ kpi_block df
        = (fun avg => [ ("Total Retail Sales", trs);
                        ("Total Retail Transfers", trt);
                        ("Total Warehouse Sales", tws);
                        ("Avg Monthly Retail Sales", avg) ]) <$> avg_monthly df.
Proof.
  intros H He. rewrite Forall_forall in H.
  assert (∀ c, c ∈ MEASURES → ∃ t, total df c = Ok t) as Hret.
  { intros c Hc. destruct (decide (c ∈ columns df)) as [Hin|Hin].
    - eexists. apply total_present; [by apply H|done].
    - eexists. by apply total_absent. }
  split.
  - intros c Hc. split; [intros Hin; apply total_present; [by apply H|done]|].
    split; [intros Hs; apply total_column_sum; [by apply H|done|done]|].
    split; [|apply total_absent].
    intros Hr. rewrite total_column_sum; [|by apply H|done|].
    + unfold column_sum, column. by rewrite Hr.
    + unfold column. rewrite Hr. apply small_integers_nil.
  - destruct (Hret "RETAIL_SALES") as [trs Hrs]; [by_compute|].
    destruct (Hret "RETAIL_TRANSFERS") as [trt Hrt]; [by_compute|].
    destruct (Hret "WAREHOUSE_SALES") as [tws Hws]; [by_compute|].
    exists trs, trt, tws. split; [done|]. split; [done|]. split; [done|].
    unfold kpi_block. rewrite Hrs, Hrt, Hws. cbn [mbind result_bind].
    by destruct (avg_monthly df).
Qed.

(** ** Groups *)

Lemma elem_of_unique {A} `{EqDecision A} (l : list A) x : x ∈ unique l ↔ x ∈ l.
Proof.
  induction l as [|y l IH]; [done|]. cbn [unique].
  rewrite !elem_of_cons, list_elem_of_filter, IH.
  destruct (decide (x = y)) as [->|Hne]; [split; by left|].
  split; [intros [?|[_ ?]]; [done|by right]|].
  intros [?|?]; [done|]. by right.
Qed.

Lemma NoDup_unique {A} `{EqDecision A} (l : list A) : NoDup (unique l).
Proof.
  induction l as [|y l IH]; [constructor|]. cbn [unique].
  constructor; [|by apply NoDup_filter].
  rewrite list_elem_of_filter. by intros [? _].
Qed.

Lemma Forall_boolean_index {A} (P : A → Prop) mask (l : list A) :
  Forall P l → Forall P (boolean_index mask l).
Proof.
  intros H. revert mask. induction H as [|x l Hx Hl IH]; intros [|[] mask]; simpl;
    try done; by try constructor.
Qed.

Lemma groupby_sum_eq keys vals :
  Forall (fun x => is_num x) vals →
  groupby_sum keys vals
  = Ok ((fun k => (k, grouped_sum (value_of <$>
                     boolean_index ((fun x => bool_decide (x = k)) <$> keys) vals)))
        <$> unique (filter (fun x => negb (isna x)) keys)).
Proof.
  intros H. unfold groupby_sum. apply mapM_total, Forall_forall. intros k _.
  by rewrite sum_cells_numeric by by apply Forall_boolean_index.
Qed.

(** The value of the "Avg Monthly Retail Sales" KPI on a table with one
    MONTH_YEAR column and one numeric RETAIL_SALES column: the mean, over
    the distinct periods present, of the sum of RETAIL_SALES in each, as
    pandas computes the sums and the mean; 0 without any period. *)
Lemma avg_monthly_eq df :
  col_count "MONTH_YEAR" (columns df) = 1 →
  "RETAIL_SALES" ∈ columns df → measure_ok df "RETAIL_SALES" →
  avg_monthly df
  = Ok (if truthy (periods df)
        then series_mean ((fun k => grouped_sum (group_values df k)) <$> periods df)
        else 0%Qc).
Proof.
  intros Hk Hin [Hc Hn]. unfold avg_monthly.
  assert ("MONTH_YEAR" ∈ columns df) as Hkin.
  { apply dec_stable. intros ?%col_count_absent. lia. }
  rewrite (proj2 (has_col_true _ _)) by done.
  rewrite (getitem_once _ _ "MONTH_YEAR") by (done || lia).
  cbn [mbind result_bind].
  rewrite getitem_once by done. cbn [mbind result_bind].
  rewrite groupby_sum_eq by (by apply Hn).
  cbn [mbind result_bind]. f_equal. fold (periods df).
  rewrite <- list_fmap_compose. by destruct (periods df).
Qed.

Lemma sum_Qc_add {A} (f g : A → Qc) l :
  sum_Qc ((fun k => f k + g k)%Qc <$> l) = (sum_Qc (f <$> l) + sum_Qc (g <$> l))%Qc.
Proof.
  induction l as [|x l IH]; csimpl; unfold sum_Qc in *; simpl.
  - by rewrite Qcplus_0_l.
  - rewrite IH. ring.
Qed.

Lemma sum_Qc_indicator {A} `{EqDecision A} (x : A) (a : Qc) ks :
  NoDup ks → x ∈ ks →
  sum_Qc ((fun k => if bool_decide (x = k) then a else 0%Qc) <$> ks) = a.
Proof.
  induction 1 as [|k ks Hk Hks IH]; [by intros ?%elem_of_nil|].
  intros Hx. csimpl. change (sum_Qc (?y :: ?l)) with (y + sum_Qc l)%Qc.
  case_bool_decide as E.
  - subst k.
    assert (sum_Qc ((fun k => if bool_decide (x = k) then a else 0%Qc) <$> ks)
            = sum_Qc ((fun _ => 0%Qc) <$> ks)) as ->.
    { f_equal. apply list_fmap_ext. intros i k Hi. simpl.
      rewrite bool_decide_eq_false_2; [done|]. intros ->.
      apply Hk. by eapply list_elem_of_lookup_2. }
    rewrite sum_Qc_zero. ring.
  - apply elem_of_cons in Hx as [?|Hx]; [done|]. rewrite IH by done. ring.
Qed.

(** The sums of the groups add up to the sum of the column when every
    key is one of the groups. *)
Lemma sum_groups (ks keys vals : list cell) :
  NoDup ks → Forall (fun x => x ∈ ks) keys → length keys = length vals →
  sum_Qc ((fun k => sum_Qc (value_of <$>
             boolean_index ((fun x => bool_decide (x = k)) <$> keys) vals)) <$> ks)
  = sum_Qc (value_of <$> vals).
Proof.
  intros Hnd Hin. revert vals.
  induction Hin as [|x keys Hx Hin IH]; intros [|v vals] Hlen; simpl in Hlen;
    try done.
  - csimpl. apply sum_Qc_zero.
  - csimpl.
    assert (sum_Qc ((fun k => sum_Qc (value_of <$>
              (if bool_decide (x = k)
               then v :: boolean_index ((fun x => bool_decide (x = k)) <$> keys) vals
               else boolean_index ((fun x => bool_decide (x = k)) <$> keys) vals))) <$> ks)
            = sum_Qc ((fun k => (if bool_decide (x = k) then value_of v else 0%Qc)
                + sum_Qc (value_of <$>
                    boolean_index ((fun x => bool_decide (x = k)) <$> keys) vals))%Qc <$> ks))
      as ->.
    { f_equal. apply list_fmap_ext. intros _ k _. simpl.
      case_bool_decide; csimpl; [done|]. by rewrite Qcplus_0_l. }
    rewrite sum_Qc_add, sum_Qc_indicator by done. rewrite IH by lia. done.
Qed.

Lemma mean_mul_length l :
  l ≠ [] → (mean l * Qc_of_Z (Z.of_nat (length l)))%Qc = sum_Qc l.
Proof.
  intros H. unfold mean.
  assert (Qc_of_Z (Z.of_nat (length l)) ≠ 0%Qc) as Hn.
  { rewrite <- Z2Qc_inj_0. intros E%Z2Qc_inj. destruct l; simpl in *; [done|lia]. }
  field. done.
Qed.

(** *** Small integers *)

Lemma is_integral_of_Z z : is_integral (Qc_of_Z z).
Proof. by apply bool_decide_pack. Qed.

Lemma numerator_of_Z z : numerator (Qc_of_Z z) = z.
Proof. done. Qed.

Lemma integral_Qnum q : is_integral q → q = Qc_of_Z (numerator q).
Proof.
  unfold is_integral. intros H%bool_decide_unpack.
  apply Qc_is_canon. destruct q as [[n d] Hq]. simpl in *. by subst d.
Qed.

(** The sum of integers is the integer that their numerators add up
    to. *)
Lemma sum_Qc_integers l :
  Forall (fun q => is_integral q) l →
  sum_Qc l = Qc_of_Z (foldr Z.add 0%Z (numerator <$> l)).
Proof.
  induction 1 as [|q l Hq Hl IH]; [symmetry; exact Z2Qc_inj_0|].
  change (sum_Qc (q :: l)) with (q + sum_Qc l)%Qc. rewrite IH. csimpl.
  rewrite Z2Qc_inj_add. f_equal. by apply integral_Qnum.
Qed.

Lemma magnitude_eq l : magnitude l = foldr Z.add 0%Z (Z.abs <$> (numerator <$> l)).
Proof. induction l as [|q l IH]; [done|]. simpl. by rewrite IH. Qed.

Lemma abs_sum_le (zs : list Z) :
  (Z.abs (foldr Z.add 0 zs) ≤ foldr Z.add 0 (Z.abs <$> zs))%Z.
Proof. induction zs as [|z zs IH]; csimpl; lia. Qed.

Lemma sum_abs_nonneg (zs : list Z) : (0 ≤ foldr Z.add 0 (Z.abs <$> zs))%Z.
Proof. induction zs as [|z zs IH]; csimpl; lia. Qed.

Lemma sum_abs_sublist (zs zs' : list Z) :
  sublist zs' zs →
  (foldr Z.add 0 (Z.abs <$> zs') ≤ foldr Z.add 0 (Z.abs <$> zs))%Z.
Proof. induction 1; csimpl; lia. Qed.

Lemma sublist_boolean_index {A} mask (l : list A) : sublist (boolean_index mask l) l.
Proof.
  revert mask. induction l as [|x l IH]; intros [|[] mask]; simpl;
    try apply sublist_nil_l.
  - by apply sublist_skip.
  - by apply sublist_cons.
Qed.

Lemma Forall_sublist {A} (P : A → Prop) (l l' : list A) :
  sublist l' l → Forall P l → Forall P l'.
Proof.
  induction 1 as [|x l1 l2 Hs IH|x l1 l2 Hs IH]; intros H; [done| |].
  - apply Forall_cons in H as [? ?]. constructor; auto.
  - apply Forall_cons in H as [? ?]. auto.
Qed.

Lemma small_integers_sublist l l' :
  sublist l' l → small_integers l → small_integers l'.
Proof.
  intros Hs [Hi Hm]. split.
  - by eapply Forall_sublist.
  - rewrite magnitude_eq in *.
    etrans; [|exact Hm]. apply sum_abs_sublist. by apply fmap_sublist.
Qed.

(** The magnitudes of the sums of the groups add up to no more than the
    magnitudes of the values. *)
Lemma abs_indicator {A} `{EqDecision A} (x : A) (v : Z) (f : A → Z) ks :
  NoDup ks →
  (foldr Z.add 0 ((fun k => Z.abs ((if bool_decide (x = k) then v else 0) + f k)) <$> ks)
   ≤ Z.abs v + foldr Z.add 0 ((fun k => Z.abs (f k)) <$> ks))%Z.
Proof.
  induction 1 as [|k ks Hk Hks IH]; csimpl; [lia|].
  case_bool_decide as E; [|lia].
  subst k.
  assert (foldr Z.add 0%Z
            ((fun k => Z.abs ((if bool_decide (x = k) then v else 0) + f k)) <$> ks)
          = foldr Z.add 0%Z ((fun k => Z.abs (f k)) <$> ks)) as ->; [|lia].
  f_equal. apply list_fmap_ext. intros i k Hi. simpl.
  rewrite bool_decide_eq_false_2; [done|]. intros ->.
  apply Hk. by eapply list_elem_of_lookup_2.
Qed.

Lemma foldr_add_zero {A} (f : A → Z) (ks : list A) :
  (∀ k, f k = 0%Z) → foldr Z.add 0%Z (f <$> ks) = 0%Z.
Proof. intros H. induction ks as [|k ks IH]; [done|]. csimpl. by rewrite H, IH. Qed.

Lemma abs_groups (ks keys : list cell) (zs : list Z) :
  NoDup ks →
  (foldr Z.add 0
     ((fun k => Z.abs (foldr Z.add 0
         (boolean_index ((fun x => bool_decide (x = k)) <$> keys) zs))) <$> ks)
   ≤ foldr Z.add 0 (Z.abs <$> zs))%Z.
Proof.
  intros Hnd. revert zs. induction keys as [|x keys IH]; intros zs.
  - rewrite foldr_add_zero by done. apply sum_abs_nonneg.
  - destruct zs as [|v zs].
    + rewrite foldr_add_zero; [done|]. intros k. csimpl. by try case_bool_decide.
    + etrans; [|etrans; [apply (abs_indicator x v
         (fun k => foldr Z.add 0%Z
            (boolean_index ((fun x => bool_decide (x = k)) <$> keys) zs)) ks Hnd)|]].
      * apply Z.eq_le_incl. f_equal. apply list_fmap_ext. intros _ k _. csimpl.
        by case_bool_decide.
      * specialize (IH zs). csimpl. lia.
Qed.

Lemma fmap_boolean_index {A B} (f : A → B) mask (l : list A) :
  f <$> boolean_index mask l = boolean_index mask (f <$> l).
Proof.
  revert mask. induction l as [|x l IH]; intros [|[] mask]; csimpl; try done.
  by rewrite IH.
Qed.

(** On small integers the sums of the groups are small integers. *)
Lemma small_integers_groups (ks keys vals : list cell) :
  NoDup ks → small_integers (value_of <$> vals) →
  small_integers ((fun k => sum_Qc (value_of <$>
      boolean_index ((fun x => bool_decide (x = k)) <$> keys) vals)) <$> ks).
Proof.
  intros Hnd [Hi Hm].
  assert (∀ k, Forall (fun q => is_integral q)
                 (value_of <$> boolean_index ((fun x => bool_decide (x = k)) <$> keys) vals))
    as Hg.
  { intros k. rewrite fmap_boolean_index. by apply Forall_boolean_index. }
  split.
  - apply Forall_fmap, Forall_true. intros k. simpl.
    rewrite sum_Qc_integers by done. apply is_integral_of_Z.
  - rewrite magnitude_eq in *. etrans; [|exact Hm].
    etrans; [|apply (abs_groups ks keys (numerator <$> (value_of <$> vals)) Hnd)].
    apply Z.eq_le_incl. f_equal. rewrite <- !list_fmap_compose.
    apply list_fmap_ext. intros _ k _. simpl.
    rewrite sum_Qc_integers by done. rewrite numerator_of_Z. do 2 f_equal.
    rewrite !fmap_boolean_index. by rewrite <- list_fmap_compose.
Qed.

(** C10, amended. For every filtered table with one MONTH_YEAR column
    that has no missing value and one RETAIL_SALES column of integers
    whose magnitudes add up to at most 2^53, the sums of the periods add
    up to the Total Retail Sales KPI, the Avg Monthly Retail Sales KPI
    is the mean that pandas computes of them, and the average times the
    number of distinct MONTH_YEAR values is the total whenever the
    total divided by that number is a float64 number. *)
Theorem avg_times_periods (df : DataFrame) :
  exact_sum (series_sum "RETAIL_SALES") → exact_sum grouped_sum →
  exact_mean series_mean →
  col_count "MONTH_YEAR" (columns df) = 1 →
  "RETAIL_SALES" ∈ columns df → measure_ok df "RETAIL_SALES" →
  Forall (fun x => isna x = false) (column df "MONTH_YEAR") →
  small_integers (value_of <$> column df "RETAIL_SALES") →
  let keys := unique (column df "MONTH_YEAR") in
  let n := Qc_of_Z (Z.of_nat (length keys)) in
  let tot := column_sum df "RETAIL_SALES" in
  ∃ avg,
    avg_monthly df = Ok avg
    ∧ total df "RETAIL_SALES" = Ok tot
    ∧ sum_Qc (group_sum df <$> keys) = tot
    ∧ (keys ≠ [] → avg = series_mean (group_sum df <$> keys))
    ∧ (is_float64 (tot / n) → (avg * n)%Qc = tot).
Proof.
  intros Hes Heg Hem Hk Hin Hm Hna Hsm keys n tot. subst n tot. eexists.
  split; [by apply avg_monthly_eq|]. split; [by apply total_column_sum|].
  assert (periods df = keys) as Hp.
  { unfold periods, keys. f_equal. apply filter_all.
    eapply Forall_impl; [done|]. intros x Hx. simpl in Hx. by rewrite Hx. }
  rewrite Hp.
  assert ((fun k => grouped_sum (group_values df k)) <$> keys = group_sum df <$> keys)
    as ->.
  { apply list_fmap_ext. intros _ k _. simpl. apply Heg.
    eapply small_integers_sublist; [|done]. unfold group_values.
    apply fmap_sublist, sublist_boolean_index. }
  assert (sum_Qc (group_sum df <$> keys) = column_sum df "RETAIL_SALES") as Hs.
  { unfold group_sum, group_values, column_sum. apply sum_groups.
    - apply NoDup_unique.
    - apply Forall_forall. intros x Hx. by apply elem_of_unique.
    - unfold column. by rewrite !length_fmap. }
  split; [done|]. split; [by destruct keys|].
  assert (length (group_sum df <$> keys) = length keys) as Hlen
    by by rewrite length_fmap.
  clearbody keys. destruct (decide (keys = [])) as [->|E].
  - intros _. rewrite <- Hs. simpl. ring.
  - assert (truthy keys = true) as -> by by destruct keys.
    intros Hf.
    assert (group_sum df <$> keys ≠ []) as Hne by by destruct keys.
    rewrite Hem.
    + rewrite <- Hs, <- Hlen. by apply mean_mul_length.
    + done.
    + unfold group_sum, group_values. apply small_integers_groups; [|done].
      rewrite <- Hp. apply NoDup_unique.
    + unfold mean. rewrite Hs, Hlen. exact Hf.
Qed.

(** ** Assigning a column *)

Lemma row_get_map_at_same c f cols r :
  length r = length cols → c ∈ cols →
  row_get c cols (map_at c f cols r) = f (row_get c cols r).
Proof.
  intros Hl Hc. rewrite map_at_labelled, row_get_map_labelled by done.
  by rewrite decide_True.
Qed.

Lemma row_get_map_at_other c c' f cols r :
  c' ≠ c → row_get c' cols (map_at c f cols r) = row_get c' cols r.
Proof.
  intros Hne. revert r. induction cols as [|l cols IH]; intros [|x r]; simpl;
    try done.
  destruct (decide (l = c')) as [->|]; [|done]. by rewrite decide_False.
Qed.

Lemma row_get_snoc_new c cols r v :
  length r = length cols → c ∉ cols → row_get c (cols ++ [c]) (r ++ [v]) = v.
Proof.
  revert r. induction cols as [|l cols IH]; intros [|x r] Hl Hc; simpl in *;
    try done.
  - by rewrite decide_True.
  - apply not_elem_of_cons in Hc as [? ?]. rewrite decide_False by done.
    apply IH; [lia|done].
Qed.

Lemma row_get_snoc_other c c' cols r v :
  length r = length cols → c' ≠ c →
  row_get c' (cols ++ [c]) (r ++ [v]) = row_get c' cols r.
Proof.
  revert r. induction cols as [|l cols IH]; intros [|x r] Hl Hc; simpl in *;
    try done.
  - by rewrite decide_False.
  - case_decide; [done|]. apply IH; [lia|done].
Qed.

Lemma length_map_at c f cols r : length (map_at c f cols r) = length r.
Proof. by rewrite map_at_labelled, length_map_labelled. Qed.

Lemma Forall_zip_with {A B C} (R : A → B → Prop) (P : C → Prop) (f : A → B → C) l k :
  Forall2 R l k → (∀ x y, x ∈ l → R x y → P (f x y)) → Forall P (zip_with f l k).
Proof.
  induction 1 as [|x y l k Hxy Hlk IH]; intros H; simpl; constructor.
  - apply H; [left|done].
  - apply IH. intros x' y' Hx'. apply H. by right.
Qed.

(** What [df[c] = values] does to each row: the cell under [c] is the
    new value, every other cell is the old one, and the row stays
    full. *)
Lemma set_col_rows (R : list cell → cell → Prop) c values df :
  well_formed df → Forall2 R (rows df) values →
  columns (set_col c values df)
  = (if has_col c (columns df) then columns df else columns df ++ [c])
  ∧ Forall (fun r' => ∃ r v, r ∈ rows df ∧ R r v
              ∧ length r' = length (columns (set_col c values df))
              ∧ row_get c (columns (set_col c values df)) r' = v
              ∧ ∀ c', c' ≠ c →
                  row_get c' (columns (set_col c values df)) r'
                  = row_get c' (columns df) r)
           (rows (set_col c values df)).
Proof.
  intros Hwf HR. unfold well_formed in Hwf. rewrite Forall_forall in Hwf.
  unfold set_col. destruct (has_col c (columns df)) eqn:E; simpl.
  - split; [done|]. apply has_col_true in E.
    eapply Forall_zip_with; [done|]. intros r v Hr Hrv. exists r, v.
    split; [done|]. split; [done|]. split; [by rewrite length_map_at; apply Hwf|].
    split; [rewrite row_get_map_at_same; by try apply Hwf|].
    intros c' Hc'. by apply row_get_map_at_other.
  - split; [done|]. apply has_col_count, col_count_absent in E.
    eapply Forall_zip_with; [done|]. intros r v Hr Hrv. exists r, v.
    split; [done|]. split; [done|].
    split; [rewrite !length_app; simpl; by rewrite Hwf|].
    split; [by apply row_get_snoc_new; [apply Hwf|]|].
    intros c' Hc'. by apply row_get_snoc_other; [apply Hwf|].
Qed.

Lemma set_col_well_formed c values df :
  well_formed df → length values = length (rows df) →
  well_formed (set_col c values df).
Proof.
  intros Hwf Hl.
  destruct (set_col_rows (fun _ _ => True) c values df) as [_ H]; [done| |].
  { apply Forall2_true; done. }
  unfold well_formed. eapply Forall_impl; [done|].
  intros r' (r & v & _ & _ & Hlen & _). done.
Qed.

(** ** The period key *)

Lemma integral_Qc q : is_integral q → q = Qc_of_Z (trunc q).
Proof.
  unfold is_integral, trunc. intros H%bool_decide_unpack.
  apply Qc_is_canon. destruct q as [[n d] Hq]. simpl in *. subst d.
  by rewrite Z.quot_1_r.
Qed.

Lemma trunc_of_Z z : trunc (Qc_of_Z z) = z.
Proof. unfold trunc. simpl. by rewrite Z.quot_1_r. Qed.

Lemma Forall2_fmap_graph {A B} (g : A → B) (l : list A) :
  Forall2 (fun x y => y = g x) l (g <$> l).
Proof. induction l; csimpl; by constructor. Qed.

Lemma to_Int64_inv c df d :
  to_Int64 c df = Ok d →
  col_count c (columns df) = 1
  ∧ d = set_col c (to_numeric <$> column df c) df
  ∧ Forall int_or_na (to_numeric <$> column df c).
Proof.
  unfold to_Int64, getitem.
  destruct (col_count c (columns df)) as [|[|n]]; simpl; try done.
  destruct (mapM astype_Int64 (to_numeric <$> column df c)) as [l|] eqn:E;
    simpl; [|done].
  intros [= <-]. apply mapM_Ok in E. split; [done|].
  assert (l = to_numeric <$> column df c ∧ Forall int_or_na (to_numeric <$> column df c))
    as [-> ?]; [|done].
  clear -E. revert E. generalize (column df c). intros s. revert l.
  induction s as [|x s IH]; intros l; csimpl; inversion 1 as [|? y ? l' Hy Hl]; subst.
  - done.
  - apply IH in Hl as [<- Hs]. unfold astype_Int64 in Hy.
    destruct (to_numeric x) as [|q|t] eqn:Ex.
    + injection Hy as <-. split; [done|]. constructor; [by left|done].
    + destruct (is_integral q) eqn:Eq; [|done]. injection Hy as <-.
      split; [done|]. constructor; [|done]. right. exists (trunc q).
      f_equal. apply integral_Qc. by rewrite Eq.
    + destruct x as [|?|u]; simpl in Ex; try done.
      by destruct (to_numeric_text u).
Qed.

Lemma col_count_one_elem c cols : col_count c cols = 1 → c ∈ cols.
Proof. intros H. apply dec_stable. intros ?%col_count_absent. lia. Qed.

(** The rows that [period_key] returns when the table has YEAR and
    MONTH: each comes from a row of the input whose YEAR and MONTH are
    integers y and m once coerced, holds these two integers and, under
    MONTH_YEAR, the label of y and m, and has its other cells
    unchanged. *)
Lemma period_key_rows df out :
  well_formed df → "YEAR" ∈ columns df → "MONTH" ∈ columns df →
  period_key df = Ok out →
  well_formed out
  ∧ columns out = (if has_col "MONTH_YEAR" (columns df) then columns df
                   else columns df ++ [ "MONTH_YEAR" ])
  ∧ Forall (fun r' => ∃ r y m,
       r ∈ rows df
       ∧ to_numeric (row_get "YEAR" (columns df) r) = Num (Qc_of_Z y)
       ∧ to_numeric (row_get "MONTH" (columns df) r) = Num (Qc_of_Z m)
       ∧ row_get "YEAR" (columns out) r' = Num (Qc_of_Z y)
       ∧ row_get "MONTH" (columns out) r' = Num (Qc_of_Z m)
       ∧ month_year_label y m = Ok (row_get "MONTH_YEAR" (columns out) r')
       ∧ ∀ c', c' ≠ "YEAR" → c' ≠ "MONTH" → c' ≠ "MONTH_YEAR" →
           row_get c' (columns out) r' = row_get c' (columns df) r)
     (rows out).
Proof.
  intros Hwf Hy Hm. unfold period_key.
  rewrite !(proj2 (has_col_true _ _)) by done. cbn [andb].
  unfold year_month_int.
  destruct (to_Int64 "YEAR" df) as [d1|] eqn:E1; [|done]. cbn [mbind result_bind].
  destruct (to_Int64 "MONTH" d1) as [d2|] eqn:E2; [|done]. cbn [mbind result_bind].
  apply to_Int64_inv in E1 as (_ & -> & Hs1).
  apply to_Int64_inv in E2 as (_ & -> & Hs2).
  set (s1 := to_numeric <$> column df "YEAR") in *.
  set (d1 := set_col "YEAR" s1 df) in *.
  set (s2 := to_numeric <$> column d1 "MONTH") in *.
  set (d2 := set_col "MONTH" s2 d1) in *.
  destruct (set_col_rows
              (fun r v => v = to_numeric (row_get "YEAR" (columns df) r))
              "YEAR" s1 df) as [Hc1 Hr1]; [done| |].
  { unfold s1, column. rewrite <- list_fmap_compose. apply Forall2_fmap_graph. }
  fold d1 in Hc1, Hr1. rewrite (proj2 (has_col_true _ _)) in Hc1 by done.
  assert (well_formed d1) as Hwf1.
  { apply set_col_well_formed; [done|]. unfold s1, column. by rewrite !length_fmap. }
  destruct (set_col_rows
              (fun r v => v = to_numeric (row_get "MONTH" (columns d1) r))
              "MONTH" s2 d1) as [Hc2 Hr2]; [done| |].
  { unfold s2, column. rewrite <- list_fmap_compose. apply Forall2_fmap_graph. }
  fold d2 in Hc2, Hr2. rewrite Hc1, (proj2 (has_col_true _ _)) in Hc2 by done.
  assert (well_formed d2) as Hwf2.
  { apply set_col_well_formed; [done|]. unfold s2, column. by rewrite !length_fmap. }
  set (d3 := dropna [ "YEAR"; "MONTH" ] d2).
  assert (well_formed d3) as Hwf3.
  { unfold well_formed in *. rewrite Forall_forall in *. intros r Hr.
    apply list_elem_of_filter in Hr as [_ Hr]. by apply Hwf2. }
  unfold add_month_year.
  destruct (mapM (month_year_of_row (columns d3)) (rows d3)) as [labels|] eqn:E4;
    [|done].
  cbn [mbind result_bind]. intros [= <-]. apply mapM_Ok in E4.
  destruct (set_col_rows
              (fun r v => month_year_of_row (columns d3) r = Ok v)
              "MONTH_YEAR" labels d3) as [Hc4 Hr4]; [done|done|].
  assert (columns d3 = columns df) as Hc3 by (by simpl; rewrite Hc2).
  rewrite Hc3 in Hc4.
  split; [|split; [done|]].
  { apply set_col_well_formed; [done|]. symmetry. by eapply Forall2_length. }
  eapply Forall_impl; [exact Hr4|]. clear Hr4.
  intros r' (r3 & lab & Hin3 & Hlab & _ & Hget & Hoth).
  unfold d3, dropna in Hin3. simpl in Hin3.
  apply list_elem_of_filter in Hin3 as [Hkeep Hin2].
  rewrite Forall_forall in Hr2.
  destruct (Hr2 _ Hin2) as (r1 & v2 & Hin1 & Hv2 & _ & Hg2 & Ho2).
  rewrite Forall_forall in Hr1.
  destruct (Hr1 _ Hin1) as (r & v1 & Hin & Hv1 & _ & Hg1 & Ho1).
  assert (int_or_na v2) as Hi2.
  { rewrite Forall_forall in Hs2. apply Hs2. subst v2. unfold s2, column.
    rewrite <- list_fmap_compose. apply list_elem_of_fmap. by exists r1. }
  assert (int_or_na v1) as Hi1.
  { rewrite Forall_forall in Hs1. apply Hs1. subst v1. unfold s1, column.
    rewrite <- list_fmap_compose. apply list_elem_of_fmap. by exists r. }
  rewrite Hc2 in Hkeep, Hg2, Ho2. rewrite Hc1 in Hv2, Hg1, Ho1, Ho2.
  rewrite Hc3 in Hlab, Hoth.
  assert (row_get "YEAR" (columns df) r3 = v1) as Hy3 by (by rewrite Ho2, Hg1).
  rewrite Ho1 in Hv2 by done.
  simpl in Hkeep. rewrite Hy3, Hg2 in Hkeep.
  destruct Hi1 as [->|[y ->]]; [done|]. destruct Hi2 as [->|[m ->]]; [done|].
  exists r, y, m. split; [done|]. split; [done|]. split; [done|].
  split; [by rewrite Hoth, Hy3|]. split; [by rewrite Hoth, Hg2|].
  split.
  - unfold month_year_of_row in Hlab. rewrite Hy3, Hg2 in Hlab. simpl in Hlab.
    rewrite !trunc_of_Z in Hlab. by rewrite Hget.
  - intros c' ? ? ?. by rewrite Hoth, Ho2, Ho1.
Qed.

(** ** What [preprocess] returns *)

Lemma ensure_numeric_inv c df d :
  ensure_numeric c df = Ok d →
  columns d = columns df ∧ col_count c (columns df) ≤ 1.
Proof.
  unfold ensure_numeric, getitem. destruct (has_col c (columns df)) eqn:E.
  - destruct (col_count c (columns df)) as [|[|n]]; simpl; try done.
    intros [= <-]. split; [done|lia].
  - intros [= <-]. split; [done|]. apply has_col_count in E. lia.
Qed.

Lemma for_each_ensure_numeric_inv l df d :
  for_each ensure_numeric l df = Ok d →
  Forall (fun c => col_count c (columns df) ≤ 1) l.
Proof.
  revert df. induction l as [|c l IH]; intros df; simpl; [by constructor|].
  destruct (ensure_numeric c df) as [d1|] eqn:E; simpl; [|done].
  apply ensure_numeric_inv in E as [Hc ?]. intros Hl%IH.
  constructor; [done|]. by rewrite <- Hc.
Qed.

(** Cleaning returns a table exactly when standardisation leaves no
    measure label twice, and then only the cells of the measures have
    changed. *)
Lemma clean_inv df d :
  clean df = Ok d →
  Forall (fun c => col_count c (standardize_labels (columns df)) ≤ 1) MEASURES
  ∧ d = map_cells clean_cell (standardize_columns df).
Proof.
  intros H.
  assert (Forall (fun c => col_count c (standardize_labels (columns df)) ≤ 1) MEASURES)
    as Hm.
  { unfold clean, coerce_and_fill in H.
    destruct (for_each ensure_numeric NUMERIC_COLS (standardize_columns df))
      as [d1|] eqn:E; [|done].
    apply for_each_ensure_numeric_inv in E. rewrite Forall_forall in E.
    apply Forall_forall. intros c Hc. apply E. revert c Hc.
    apply Forall_forall. by_compute. }
  split; [done|]. unfold clean in H.
  rewrite coerce_and_fill_cells in H.
  - by injection H.
  - intros old Hold. by apply standardized_no_legacy.
  - by apply Forall_forall.
Qed.

Lemma clean_well_formed df d : well_formed df → clean df = Ok d → well_formed d.
Proof.
  intros Hwf [_ ->]%clean_inv. by apply well_formed_map_cells, well_formed_standardize.
Qed.

Lemma preprocess_inv df out :
  preprocess df = Ok out → ∃ d, clean df = Ok d ∧ period_key d = Ok out.
Proof.
  unfold preprocess. destruct (clean df) as [d|]; [|done]. by exists d.
Qed.

Lemma period_key_skip df out :
  period_key df = Ok out →
  has_col "YEAR" (columns df) && has_col "MONTH" (columns df) = false → out = df.
Proof. unfold period_key. intros H E. rewrite E in H. by injection H. Qed.

Lemma elem_of_snoc_ne (c c' : string) cols : c ≠ c' → c ∈ cols ++ [c'] → c ∈ cols.
Proof.
  intros Hne [?|H]%elem_of_app; [done|]. apply list_elem_of_singleton in H. congruence.
Qed.

(** The table that [preprocess] returns has integers only under YEAR
    when it has both YEAR and MONTH. *)
Lemma preprocess_years df out :
  well_formed df → preprocess df = Ok out →
  "YEAR" ∈ columns out → "MONTH" ∈ columns out →
  Forall (fun x => ∃ y, x = Num (Qc_of_Z y)) (column out "YEAR").
Proof.
  intros Hwf (d & Hc & Hk)%preprocess_inv Hy Hm.
  pose proof (clean_well_formed _ _ Hwf Hc) as Hwfd.
  destruct (has_col "YEAR" (columns d) && has_col "MONTH" (columns d)) eqn:E.
  - apply andb_true_iff in E as [Ey%has_col_true Em%has_col_true].
    destruct (period_key_rows _ _ Hwfd Ey Em Hk) as (_ & _ & Hr).
    unfold column. apply Forall_fmap. eapply Forall_impl; [done|].
    intros r' (r & y & m & _ & _ & _ & Hgy & _). by exists y.
  - pose proof (period_key_skip _ _ Hk E) as ->.
    rewrite !(proj2 (has_col_true _ _)) in E by done. done.
Qed.

(** ** The full selection *)

Lemma elem_of_sorted_ints x l : x ∈ sorted_ints l ↔ x ∈ l.
Proof. unfold sorted_ints. by rewrite merge_sort_Permutation. Qed.

Lemma elem_of_sorted_texts x l : x ∈ sorted_texts l ↔ x ∈ l.
Proof. unfold sorted_texts. by rewrite merge_sort_Permutation. Qed.

Lemma truthy_passes {A} (sel : list A) test x :
  (truthy sel = true → test sel x = true) → passes sel test x = true.
Proof. unfold passes. destruct (truthy sel); auto. Qed.

(** With every option selected, each row passes when YEAR, if the
    table has it, holds integers only. *)
Lemma full_selection_passes df o :
  ("YEAR" ∈ columns df →
     Forall (fun x => ∃ y, x = Num (Qc_of_Z y)) (column df "YEAR")) →
  sidebar_options df = Ok o →
  Forall (fun r => row_passes (columns df) o r) (rows df).
Proof.
  intros Hint Ho. apply sidebar_options_inv in Ho as (Hyo & Hso & Hto).
  apply years_inv in Hyo. apply text_options_inv in Hso. apply text_options_inv in Hto.
  apply Forall_forall. intros r Hr. unfold row_passes.
  assert (∀ c sel,
    ((c ∉ columns df) ∧ sel = [])
    ∨ (col_count c (columns df) = 1
       ∧ sel = sorted_texts (unique (astype_str <$> column df c))) →
    passes sel isin_texts (row_get c (columns df) r) = true) as Htext.
  { intros c sel [[_ ->]|[_ ->]]; [done|]. apply truthy_passes. intros _.
    unfold isin_texts. apply bool_decide_eq_true.
    apply elem_of_sorted_texts, elem_of_unique, list_elem_of_fmap.
    eexists. split; [done|]. unfold column. apply list_elem_of_fmap. by exists r. }
  rewrite !Htext by done. rewrite !andb_true_r. apply Is_true_true.
  destruct Hyo as [[_ ->]|(Hc & l & Hl & ->)]; [done|].
  apply truthy_passes. intros _.
  assert (row_get "YEAR" (columns df) r ∈ column df "YEAR") as Hin.
  { unfold column. apply list_elem_of_fmap. by exists r. }
  specialize (Hint (col_count_one_elem _ _ Hc)). rewrite Forall_forall in Hint.
  destruct (Hint _ Hin) as [y Hy]. rewrite Hy in *. simpl.
  apply bool_decide_eq_true. apply list_elem_of_fmap. exists y. split; [done|].
  apply elem_of_sorted_ints.
  apply mapM_Ok in Hl.
  assert (Num (Qc_of_Z y) ∈ unique (filter (fun x => negb (isna x)) (column df "YEAR")))
    as Hu.
  { apply elem_of_unique, list_elem_of_filter. done. }
  apply list_elem_of_lookup in Hu as [i Hi].
  destruct (Forall2_lookup_l _ _ _ _ _ Hl Hi) as (z & Hz & Hzy).
  simpl in Hzy. rewrite trunc_of_Z in Hzy. injection Hzy as <-.
  by eapply list_elem_of_lookup_2.
Qed.

(** C7, amended. For every table that [preprocess] returns and whose
    YEAR column, if it has one, holds integers only (as it does when the
    table also has a MONTH column), the filters with the full selection
    (every year, every supplier and every item type that the sidebar
    offers) return the table itself. *)
Theorem full_selection_noop (raw df : DataFrame) (o : Selection) :
  well_formed raw → preprocess raw = Ok df →
  ("YEAR" ∈ columns df →
     "MONTH" ∈ columns df
     ∨ Forall (fun x => ∃ y, x = Num (Qc_of_Z y)) (column df "YEAR")) →
  sidebar_options df = Ok o →
  apply_filters df o = Ok df.
Proof.
  intros Hwf Hp Hym Ho.
  rewrite apply_filters_rows by (by exists o).
  rewrite filter_all; [by destruct df|].
  apply full_selection_passes; [|done].
  intros Hy. destruct (Hym Hy) as [Hm|?]; [|done]. by eapply preprocess_years.
Qed.

(** ** Objects *)

Lemma lookup_total_snoc (h : list DataFrame) d : (h ++ [d]) !!! length h = d.
Proof. induction h as [|x h IH]; [done|]. simpl. apply IH. Qed.

Lemma insert_snoc (h : list DataFrame) d d' : <[length h := d']> (h ++ [d]) = h ++ [d'].
Proof. induction h as [|x h IH]; [done|]. simpl. by rewrite IH. Qed.

Lemma take_snoc (h k : list DataFrame) : take (length h) (h ++ k) = h.
Proof. by rewrite take_app_length. Qed.

Lemma lookup_snoc (h : list DataFrame) d : (h ++ [d]) !! length h = Some d.
Proof. by apply list_lookup_middle. Qed.

Lemma fresh_result_intro h k d :
  h `prefix_of` k → fresh_result h d (Ok (length k, k ++ [d])).
Proof.
  intros [k' ->]. eexists _, _. split; [done|].
  split; [rewrite length_app; lia|]. split; [apply lookup_snoc|].
  by rewrite <- app_assoc, take_app_length.
Qed.

(** One filter of lines 170-175 on both levels: the test, then the
    selection of the rows. *)
Ltac filter_step :=
  rewrite ?lookup_total_snoc;
  lazymatch goal with
  | |- context [if ?b then keep_where ?c ?t ?d else Ok ?d] =>
      destruct b; cbn [mbind result_bind];
      [ destruct (keep_where c t d); cbn [mbind result_bind]; [|done] | ]
  end.

Lemma obj_apply_filters_fresh h df sel :
  match apply_filters (h !!! df) sel with
  | Ok d => fresh_result h d (obj_apply_filters df sel h)
  | Raise e => obj_apply_filters df sel h = Raise e
  end.
Proof.
  unfold apply_filters, obj_apply_filters, obj_copy, obj_keep_where, obj_new.
  generalize (h !!! df). intros d0.
  do 3 filter_step; apply fresh_result_intro; by repeat apply prefix_app_r.
Qed.

(** C9, amended. [preprocess] and the filters return a new object that
    holds the table they compute from the value of their argument (and
    from the selection), and [kpi_block] returns the mapping it computes
    from that value; every object that existed before the call, the
    argument among them, is unchanged after it.  Three steps write to
    their argument: [standardize_columns] overwrites its labels and
    returns the same object, and lines 194 and 235 of the charts assign
    a column of [filtered]; the other objects are unchanged. *)
Theorem stages_and_their_arguments (h : list DataFrame) (df : nat) (sel : Selection) :
  match preprocess (h !!! df) with
  | Ok d => ∃ r h', obj_preprocess df h = Ok (r, h')
              ∧ length h ≤ r ∧ h' !! r = Some d ∧ take (length h) h' = h
  | Raise e => obj_preprocess df h = Raise e
  end
  ∧ match apply_filters (h !!! df) sel with
    | Ok d => ∃ r h', obj_apply_filters df sel h = Ok (r, h')
                ∧ length h ≤ r ∧ h' !! r = Some d ∧ take (length h) h' = h
    | Raise e => obj_apply_filters df sel h = Raise e
    end
  ∧ obj_kpi_block df h = (fun k => (k, h)) <$> kpi_block (h !!! df)
  ∧ (∃ h', obj_standardize_columns df h = (df, h')
       ∧ h' !! df = standardize_columns <$> h !! df
       ∧ ∀ l, l ≠ df → h' !! l = h !! l)
  ∧ (∀ to_datetime,
       match month_year_dates to_datetime (h !!! df) with
       | Ok d => ∃ h', obj_month_year_dates to_datetime df h = Ok (df, h')
                   ∧ h' !! df = (fun _ => d) <$> h !! df
                   ∧ ∀ l, l ≠ df → h' !! l = h !! l
       | Raise e => obj_month_year_dates to_datetime df h = Raise e
       end)
  ∧ match item_labels (h !!! df) with
    | Ok d => ∃ h', obj_item_labels df h = Ok (df, h')
                ∧ h' !! df = (fun _ => d) <$> h !! df
                ∧ ∀ l, l ≠ df → h' !! l = h !! l
    | Raise e => obj_item_labels df h = Raise e
    end.
Proof.
  assert (∀ d, <[df := d]> h !! df = (fun _ => d) <$> h !! df) as Hset.
  { intros d. destruct (h !! df) as [d'|] eqn:E.
    - by rewrite list_lookup_insert_eq by by eapply lookup_lt_Some.
    - by rewrite list_insert_ge by by apply lookup_ge_None. }
  split; [|split; [|split; [|split; [|split]]]].
  - unfold preprocess, clean, period_key, obj_preprocess, obj_copy, obj_new,
      obj_standardize_columns.
    rewrite lookup_total_snoc, insert_snoc, lookup_total_snoc.
    destruct (coerce_and_fill (standardize_columns (h !!! df))) as [d|]; [|done].
    cbn [mbind result_bind]. rewrite insert_snoc.
    destruct (has_col "YEAR" (columns d) && has_col "MONTH" (columns d)).
    + destruct (year_month_int d) as [d2|]; [|done]. cbn [mbind result_bind].
      rewrite insert_snoc, lookup_total_snoc.
      destruct (add_month_year (dropna [ "YEAR"; "MONTH" ] d2)) as [d3|]; [|done].
      cbn [mbind result_bind]. rewrite insert_snoc.
      apply (fresh_result_intro h (h ++ [d2]) d3). by apply prefix_app_r.
    + by apply (fresh_result_intro h h d).
  - apply obj_apply_filters_fresh.
  - unfold obj_kpi_block, obj_read, kpi_block.
    destruct (total (h !!! df) "RETAIL_SALES"); [|done]. cbn [mbind result_bind].
    destruct (total (h !!! df) "RETAIL_TRANSFERS"); [|done]. cbn [mbind result_bind].
    destruct (total (h !!! df) "WAREHOUSE_SALES"); [|done]. cbn [mbind result_bind].
    by destruct (avg_monthly (h !!! df)).
  - eexists. split; [done|]. split.
    + rewrite Hset. destruct (h !! df) as [d|] eqn:E; [|done].
      by rewrite (list_lookup_total_correct _ _ _ E).
    + intros l Hl. by rewrite list_lookup_insert_ne.
  - intros to_datetime. unfold obj_month_year_dates.
    destruct (month_year_dates to_datetime (h !!! df)) as [d|]; [|done].
    cbn [mbind result_bind].
    eexists. split; [done|]. split; [apply Hset|].
    intros l Hl. by rewrite list_lookup_insert_ne.
  - unfold obj_item_labels.
    destruct (item_labels (h !!! df)) as [d|]; [|done]. cbn [mbind result_bind].
    eexists. split; [done|]. split; [apply Hset|].
    intros l Hl. by rewrite list_lookup_insert_ne.
Qed.

(** ** What the filters and the KPIs can rely on *)

(** A month from 1 to 12 of a year from 1678 to 2261 gets the label
    YYYY-MM. *)
Lemma month_year_label_valid y m :
  (1678 ≤ y ≤ 2261)%Z → (1 ≤ m ≤ 12)%Z →
  month_year_label y m = Ok (Str (period_str y m)).
Proof.
  intros Hy Hm. unfold month_year_label, read_yyyymmdd, assemble.
  assert ((y * 10000 + m * 100 + 1) / 10000 = y)%Z as ->.
  { symmetry. apply (Z.div_unique _ _ _ (m * 100 + 1)%Z); lia. }
  assert ((y * 10000 + m * 100 + 1) / 100 = y * 100 + m)%Z as ->.
  { symmetry. apply (Z.div_unique _ _ _ 1%Z); lia. }
  assert ((y * 100 + m) `mod` 100 = m)%Z as ->.
  { symmetry. apply (Z.mod_unique _ _ y); lia. }
  assert ((y * 10000 + m * 100 + 1) `mod` 100 = 1)%Z as ->.
  { symmetry. apply (Z.mod_unique _ _ (y * 100 + m)%Z); lia. }
  assert (28 ≤ days_in_month y m)%Z.
  { unfold days_in_month. repeat case_bool_decide; destruct (is_leap y); lia. }
  rewrite !bool_decide_eq_true_2 by lia. done.
Qed.

Lemma col_count_snoc_ne (c c' : string) cols :
  c ≠ c' → col_count c (cols ++ [c']) = col_count c cols.
Proof.
  intros Hne. unfold col_count. rewrite filter_app, length_app.
  rewrite filter_cons, decide_False by congruence. simpl. lia.
Qed.

(** In the table that [preprocess] returns each measure, where present,
    is a single column of numbers. *)
Lemma preprocess_measures df out :
  well_formed df → preprocess df = Ok out → Forall (measure_ok out) MEASURES.
Proof.
  intros Hwf (d & Hc & Hk)%preprocess_inv.
  pose proof (clean_well_formed _ _ Hwf Hc) as Hwfd.
  apply clean_inv in Hc as [Hm Hd]. rewrite Forall_forall in Hm.
  assert (∀ c, c ∈ MEASURES → measure_ok d c) as Hd_ok.
  { intros c Hcm. split; [subst d; by apply Hm|]. intros Hin. subst d.
    rewrite column_map_cells by (by try apply well_formed_standardize).
    apply Forall_fmap, Forall_true. intros x. simpl.
    by rewrite clean_cell_measure. }
  apply Forall_forall. intros c Hcm.
  destruct (has_col "YEAR" (columns d) && has_col "MONTH" (columns d)) eqn:E.
  - apply andb_true_iff in E as [Ey%has_col_true Em%has_col_true].
    destruct (period_key_rows _ _ Hwfd Ey Em Hk) as (_ & Hcols & Hr).
    assert (c ≠ "YEAR" ∧ c ≠ "MONTH" ∧ c ≠ "MONTH_YEAR") as (? & ? & ?).
    { revert c Hcm. apply Forall_forall. by_compute. }
    destruct (Hd_ok c Hcm) as [Hcnt Hnum].
    assert (col_count c (columns out) = col_count c (columns d)) as Hcc.
    { rewrite Hcols. destruct (has_col "MONTH_YEAR" (columns d)); [done|].
      by apply col_count_snoc_ne. }
    split; [by rewrite Hcc|]. intros Hin.
    assert (c ∈ columns d) as Hind.
    { apply dec_stable. intros Habs%col_count_absent. rewrite <- Hcc in Habs.
      by apply col_count_absent in Habs. }
    specialize (Hnum Hind). rewrite Forall_forall in Hnum.
    unfold column. apply Forall_fmap. eapply Forall_impl; [done|].
    intros r' (r & y & m & Hrin & _ & _ & _ & _ & _ & Hoth). simpl.
    rewrite Hoth by done. apply Hnum. unfold column.
    apply list_elem_of_fmap. by exists r.
  - pose proof (period_key_skip _ _ Hk E) as ->. by apply Hd_ok.
Qed.

(** When [preprocess] has built the key, no MONTH_YEAR is missing. *)
Lemma preprocess_periods df out :
  well_formed df → preprocess df = Ok out →
  "YEAR" ∈ columns out → "MONTH" ∈ columns out →
  Forall (fun x => isna x = false) (column out "MONTH_YEAR").
Proof.
  intros Hwf (d & Hc & Hk)%preprocess_inv Hy Hm.
  pose proof (clean_well_formed _ _ Hwf Hc) as Hwfd.
  destruct (has_col "YEAR" (columns d) && has_col "MONTH" (columns d)) eqn:E.
  - apply andb_true_iff in E as [Ey%has_col_true Em%has_col_true].
    destruct (period_key_rows _ _ Hwfd Ey Em Hk) as (_ & _ & Hr).
    unfold column. apply Forall_fmap. eapply Forall_impl; [done|].
    intros r' (r & y & m & _ & _ & _ & _ & _ & Hlab & _). simpl.
    unfold month_year_label in Hlab.
    destruct (read_yyyymmdd (assemble y m 1)) as [[Y M]|]; [|done].
    by injection Hlab as <-.
  - pose proof (period_key_skip _ _ Hk E) as ->.
    rewrite !(proj2 (has_col_true _ _)) in E by done. done.
Qed.

(** The filters keep the measures as they are. *)
Lemma apply_filters_measures df sel out c :
  offered df sel → apply_filters df sel = Ok out →
  measure_ok df c → measure_ok out c.
Proof.
  intros Hoff Hf [Hcnt Hnum]. rewrite apply_filters_rows in Hf by done.
  injection Hf as <-. split; [done|]. simpl. intros Hin.
  specialize (Hnum Hin). rewrite Forall_forall in Hnum.
  unfold column. simpl. apply Forall_fmap, Forall_forall.
  intros r [_ Hr]%list_elem_of_filter. simpl. apply Hnum.
  unfold column. apply list_elem_of_fmap. by exists r.
Qed.

(** Every filtered table of the script has its measures, where present,
    as single columns of numbers. *)
Lemma filtered_measures raw df sel filtered :
  well_formed raw → preprocess raw = Ok df →
  offered df sel → apply_filters df sel = Ok filtered →
  Forall (measure_ok filtered) MEASURES.
Proof.
  intros Hwf Hp Hoff Hf. pose proof (preprocess_measures _ _ Hwf Hp) as H.
  eapply Forall_impl; [done|]. intros c Hc. by eapply apply_filters_measures.
Qed.

(** * Further properties of the code *)

(** ** Standardisation and cleaning *)

Lemma standardize_labels_idem cols :
  standardize_labels (standardize_labels cols) = standardize_labels cols.
Proof.
  rewrite !standardize_labels_eq, <- list_fmap_compose.
  apply list_fmap_ext. intros _ c _. simpl. apply canonical_name_normal.
Qed.

Lemma standardize_columns_idem df :
  standardize_columns (standardize_columns df) = standardize_columns df.
Proof. unfold standardize_columns. simpl. by rewrite standardize_labels_idem. Qed.

(** X1. On a table whose labels are standardized none of the six legacy
    labels occurs, so the renames of lines 77-82
    ([if old in df.columns and new not in df.columns]) never change the
    table that [preprocess] works on. *)
Theorem coalesce_never_renames (df d : DataFrame) (old new : string) :
  columns d = standardize_labels (columns df) → old ∈ RENAME_MAP.*1 →
  (old ∉ columns d) ∧ coalesce old new d = d.
Proof.
  intros Hc Hold.
  assert (old ∉ columns d) as H by (rewrite Hc; by apply standardized_no_legacy).
  split; [done|]. by apply coalesce_absent.
Qed.

Lemma ensure_numeric_raise c df e : ensure_numeric c df = Raise e → e = TypeError.
Proof.
  unfold ensure_numeric, getitem. destruct (has_col c (columns df)) eqn:E; [|done].
  apply has_col_true in E.
  destruct (col_count c (columns df)) as [|[|n]] eqn:Ec; simpl; [|done|congruence].
  by apply col_count_absent in Ec.
Qed.

Lemma for_each_ensure_numeric_raise l df e :
  for_each ensure_numeric l df = Raise e → e = TypeError.
Proof.
  revert df. induction l as [|c l IH]; intros df; simpl; [done|].
  destruct (ensure_numeric c df) as [d|e'] eqn:E; simpl.
  - apply IH.
  - intros [= <-]. by eapply ensure_numeric_raise.
Qed.

(** X2. Cleaning (lines 65-92) fails in one way only: it raises
    TypeError exactly when standardisation leaves the label of a measure
    twice, whatever the cells hold; otherwise it returns the standardized
    table with the cells of the measures coerced and filled. *)
Theorem clean_returns_or_type_error (df : DataFrame) :
  clean df
  = if decide (Forall (fun c => col_count c (standardize_labels (columns df)) ≤ 1)
                      MEASURES)
    then Ok (map_cells clean_cell (standardize_columns df))
    else Raise TypeError.
Proof.
  case_decide as H.
  - unfold clean. apply coerce_and_fill_cells.
    + intros old Hold. by apply standardized_no_legacy.
    + by apply Forall_forall.
  - destruct (clean df) as [d|e] eqn:E.
    + apply clean_inv in E as [? _]. done.
    + f_equal. unfold clean, coerce_and_fill in E.
      destruct (for_each ensure_numeric NUMERIC_COLS (standardize_columns df))
        as [d|e'] eqn:E'; [done|].
      injection E as <-. by eapply for_each_ensure_numeric_raise.
Qed.

Lemma clean_cell_idem l x : clean_cell l (clean_cell l x) = clean_cell l x.
Proof.
  unfold clean_cell. case_bool_decide; [|done].
  destruct x as [|q|t]; simpl; try done. by destruct (to_numeric_text t).
Qed.

(** X3. Cleaning is idempotent: a table that cleaning returned is
    returned unchanged when it is cleaned again, as happens when the
    cleaned file is loaded and [preprocess] runs on it. *)
Theorem clean_idempotent (df d : DataFrame) :
  clean df = Ok d → clean d = Ok d.
Proof.
  intros [Hm ->]%clean_inv. unfold clean.
  assert (standardize_columns (map_cells clean_cell (standardize_columns df))
          = map_cells clean_cell (standardize_columns df)) as ->.
  { unfold standardize_columns, map_cells. simpl. by rewrite standardize_labels_idem. }
  rewrite coerce_and_fill_cells.
  - f_equal. rewrite map_cells_compose. apply map_cells_ext.
    intros l x _. apply clean_cell_idem.
  - intros old Hold. by apply standardized_no_legacy.
  - by apply Forall_forall.
Qed.

Lemma row_get_map_labelled_fixed c f cols r :
  (∀ x, f c x = x) → row_get c cols (map_labelled f cols r) = row_get c cols r.
Proof.
  intros Hf. revert r. induction cols as [|l cols IH]; intros [|x r]; simpl;
    try done.
  case_decide; subst; [by rewrite Hf|done].
Qed.

(** X4. Cleaning keeps the rows in number and changes no cell outside
    the three measures: every other column of the result is the column of
    the standardized input. *)
Theorem clean_keeps_other_columns (df d : DataFrame) (c : string) :
  clean df = Ok d → c ∉ MEASURES →
  length (rows d) = length (rows df)
  ∧ column d c = column (standardize_columns df) c.
Proof.
  intros [_ ->]%clean_inv Hc. split; [by simpl; rewrite length_fmap|].
  unfold column, map_cells. simpl. rewrite <- list_fmap_compose.
  apply list_fmap_ext. intros _ r _. simpl.
  apply row_get_map_labelled_fixed. intros x. unfold clean_cell.
  by rewrite bool_decide_eq_false_2.
Qed.

(** ** Loading *)

Lemma preprocess_standardized df : preprocess (standardize_columns df) = preprocess df.
Proof. unfold preprocess, clean. by rewrite standardize_columns_idem. Qed.

(** X5. Uploading a file that holds the table of the default file gives
    the same [_df] as loading the default file: that
    [load_default_data] has already standardized the labels makes no
    difference to what [preprocess] returns. *)
Theorem upload_same_as_default (read_csv : string → result DataFrame)
    (f : string) (d : DataFrame) :
  read_csv f = Ok d → read_csv DEFAULT_CSV = Ok d →
  preprocessed_input read_csv true (Some f) = preprocessed_input read_csv false None.
Proof.
  intros Hf Hd. unfold preprocessed_input, data_input, load_default_data.
  rewrite Hf, Hd. cbn [mbind result_bind fmap result_fmap].
  by rewrite preprocess_standardized.
Qed.

(** X6. [load_default_data] reads the second path only when reading the
    first one raised; it raises only when both reads do, and then the
    exception of the second; and the table it returns has standardized
    labels, none of them a legacy label. *)
Theorem load_default_data_cases (read_csv : string → result DataFrame) :
  match load_default_data read_csv with
  | Ok out =>
      (∃ d, out = standardize_columns d
            ∧ (read_csv DEFAULT_CSV = Ok d
               ∨ (¬ returns (read_csv DEFAULT_CSV) ∧ read_csv FALLBACK_CSV = Ok d)))
      ∧ standardize_labels (columns out) = columns out
      ∧ Forall (fun old => old ∉ columns out) RENAME_MAP.*1
  | Raise e =>
      ¬ returns (read_csv DEFAULT_CSV) ∧ read_csv FALLBACK_CSV = Raise e
  end.
Proof.
  unfold load_default_data.
  assert (∀ d, standardize_labels (columns (standardize_columns d))
               = columns (standardize_columns d)
               ∧ Forall (fun old => old ∉ columns (standardize_columns d)) RENAME_MAP.*1)
    as Hstd.
  { intros d. split; [apply standardize_labels_idem|].
    apply Forall_forall. intros old Hold. by apply standardized_no_legacy. }
  destruct (read_csv DEFAULT_CSV) as [d|e1] eqn:E1; simpl.
  - split; [|apply Hstd]. exists d. split; [done|]. by left.
  - assert (¬ returns (Raise e1 : result DataFrame)) as Hn by (by intros [? ?]).
    destruct (read_csv FALLBACK_CSV) as [d|e2] eqn:E2; simpl; [|done].
    split; [|apply Hstd]. exists d. split; [done|]. by right.
Qed.

(** ** The period key, row by row *)

Lemma Forall2_elem_l {A B} (R : A → B → Prop) l k :
  Forall2 R l k → Forall2 (fun x y => x ∈ l ∧ R x y) l k.
Proof.
  induction 1 as [|x y l k Hxy Hlk IH]; constructor.
  - split; [left|done].
  - eapply Forall2_impl; [done|]. intros x' y' [? ?]. split; [by right|done].
Qed.

Lemma Forall2_zip_with_l {A B C} (R : A → B → Prop) (P : A → C → Prop)
    (f : A → B → C) l k :
  Forall2 R l k → (∀ x y, R x y → P x (f x y)) → Forall2 P l (zip_with f l k).
Proof. induction 1; intros Hf; simpl; constructor; auto. Qed.

Lemma Forall2_compose {A B C} (P : A → B → Prop) (Q : B → C → Prop) l k m :
  Forall2 P l k → Forall2 Q k m → Forall2 (fun x z => ∃ y, P x y ∧ Q y z) l m.
Proof.
  intros H. revert m. induction H as [|x y l k Hxy Hlk IH]; intros m Hm;
    inversion Hm; subst; constructor; [by exists y|by apply IH].
Qed.

(** [df[c] = values], row by row and in order. *)
Lemma set_col_rows2 (R : list cell → cell → Prop) c values df :
  well_formed df → Forall2 R (rows df) values →
  Forall2 (fun r r' => ∃ v, R r v
             ∧ length r' = length (columns (set_col c values df))
             ∧ row_get c (columns (set_col c values df)) r' = v
             ∧ ∀ c', c' ≠ c →
                 row_get c' (columns (set_col c values df)) r'
                 = row_get c' (columns df) r)
          (rows df) (rows (set_col c values df)).
Proof.
  intros Hwf HR. unfold well_formed in Hwf. rewrite Forall_forall in Hwf.
  apply Forall2_elem_l in HR.
  unfold set_col. destruct (has_col c (columns df)) eqn:E; simpl.
  - apply has_col_true in E. eapply Forall2_zip_with_l; [done|].
    intros r v [Hr Hrv]. exists v.
    split; [done|]. split; [by rewrite length_map_at; apply Hwf|].
    split; [rewrite row_get_map_at_same; by try apply Hwf|].
    intros c' Hc'. by apply row_get_map_at_other.
  - apply has_col_count, col_count_absent in E. eapply Forall2_zip_with_l; [done|].
    intros r v [Hr Hrv]. exists v. split; [done|].
    split; [rewrite !length_app; simpl; by rewrite Hwf|].
    split; [by apply row_get_snoc_new; [apply Hwf|]|].
    intros c' Hc'. by apply row_get_snoc_other; [apply Hwf|].
Qed.

Lemma Forall2_graph2 {A} (P : cell → Prop) (f : cell → cell) (g : A → cell) l :
  Forall P (f <$> (g <$> l)) →
  Forall2 (fun r v => v = f (g r) ∧ P v) l (f <$> (g <$> l)).
Proof.
  induction l as [|r l IH]; csimpl; [constructor|].
  inversion 1; subst. constructor; [done|by apply IH].
Qed.

(** X7. When the table has YEAR and MONTH, the rows that [period_key]
    returns are, in their order, the rows whose YEAR and MONTH are both
    numbers once coerced: a row is dropped exactly when one of the two is
    missing or does not parse.  Each row kept holds the two integers, the
    label that [pd.to_datetime] gives them under MONTH_YEAR, and its other
    cells unchanged. *)
Theorem period_key_keeps_exactly (df out : DataFrame) :
  well_formed df → "YEAR" ∈ columns df → "MONTH" ∈ columns df →
  period_key df = Ok out →
  Forall2 (fun r r' => ∃ y m,
             to_numeric (row_get "YEAR" (columns df) r) = Num (Qc_of_Z y)
             ∧ to_numeric (row_get "MONTH" (columns df) r) = Num (Qc_of_Z m)
             ∧ row_get "YEAR" (columns out) r' = Num (Qc_of_Z y)
             ∧ row_get "MONTH" (columns out) r' = Num (Qc_of_Z m)
             ∧ month_year_label y m = Ok (row_get "MONTH_YEAR" (columns out) r')
             ∧ ∀ c', c' ≠ "YEAR" → c' ≠ "MONTH" → c' ≠ "MONTH_YEAR" →
                 row_get c' (columns out) r' = row_get c' (columns df) r)
    (filter (fun r => to_numeric (row_get "YEAR" (columns df) r) ≠ NA
                      ∧ to_numeric (row_get "MONTH" (columns df) r) ≠ NA)
            (rows df))
    (rows out).
Proof.
  intros Hwf Hy Hm. unfold period_key.
  rewrite !(proj2 (has_col_true _ _)) by done. cbn [andb].
  unfold year_month_int.
  destruct (to_Int64 "YEAR" df) as [d1|] eqn:E1; [|done]. cbn [mbind result_bind].
  destruct (to_Int64 "MONTH" d1) as [d2|] eqn:E2; [|done]. cbn [mbind result_bind].
  apply to_Int64_inv in E1 as (_ & -> & Hs1).
  apply to_Int64_inv in E2 as (_ & -> & Hs2).
  apply Forall2_graph2 in Hs1. apply Forall2_graph2 in Hs2.
  set (s1 := to_numeric <$> column df "YEAR") in *.
  set (d1 := set_col "YEAR" s1 df) in *.
  set (s2 := to_numeric <$> column d1 "MONTH") in *.
  set (d2 := set_col "MONTH" s2 d1) in *.
  assert (columns d1 = columns df) as Hc1.
  { unfold d1, set_col. by rewrite (proj2 (has_col_true _ _)) by done. }
  assert (columns d2 = columns df) as Hc2.
  { unfold d2, set_col. rewrite Hc1. by rewrite (proj2 (has_col_true _ _)) by done. }
  pose proof (set_col_rows2 _ "YEAR" s1 df Hwf Hs1) as H1.
  fold d1 in H1. rewrite Hc1 in H1.
  assert (well_formed d1) as Hwf1.
  { apply set_col_well_formed; [done|]. unfold s1, column. by rewrite !length_fmap. }
  pose proof (set_col_rows2 _ "MONTH" s2 d1 Hwf1 Hs2) as H2.
  fold d2 in H2. rewrite Hc2, Hc1 in H2.
  assert (well_formed d2) as Hwf2.
  { apply set_col_well_formed; [done|]. unfold s2, column. by rewrite !length_fmap. }
  pose proof (Forall2_compose _ _ _ _ _ H1 H2) as H12.
  set (d3 := dropna [ "YEAR"; "MONTH" ] d2).
  assert (well_formed d3) as Hwf3.
  { unfold well_formed in *. rewrite Forall_forall in *. intros r Hr.
    apply list_elem_of_filter in Hr as [_ Hr]. by apply Hwf2. }
  assert (columns d3 = columns df) as Hc3 by done.
  unfold add_month_year.
  destruct (mapM (month_year_of_row (columns d3)) (rows d3)) as [labels|] eqn:E4;
    [|done].
  cbn [mbind result_bind]. intros [= <-]. apply mapM_Ok in E4.
  pose proof (set_col_rows2 _ "MONTH_YEAR" labels d3 Hwf3 E4) as H4.
  rewrite Hc3 in H4.
  eapply (Forall2_filter _
            (fun r => to_numeric (row_get "YEAR" (columns df) r) ≠ NA
                      ∧ to_numeric (row_get "MONTH" (columns df) r) ≠ NA)
            (fun r => forallb (fun c => negb (isna (row_get c (columns d2) r)))
                        [ "YEAR"; "MONTH" ])) in H12.
  2:{ intros r r2 (r1 & (v1 & [Hv1 _] & _ & Hg1 & Ho1) & (v2 & [Hv2 _] & _ & Hg2 & Ho2)).
      rewrite Hc2. cbn [forallb]. rewrite Ho2, Hg1, Hg2 by done.
      rewrite Ho1 in Hv2 by done. rewrite <- Hv1, <- Hv2.
      destruct v1, v2; cbn; split; (intros [? ?] || intros ?); try done. }
  pose proof (Forall2_compose _ _ _ _ _ H12 H4) as H.
  eapply Forall2_impl; [exact H|]. clear H H12 H4 H1 H2.
  intros r r' (r2 & (r1 & (v1 & [Hv1 Hi1] & _ & Hg1 & Ho1)
                        & (v2 & [Hv2 Hi2] & _ & Hg2 & Ho2))
                  & (lab & Hlab & _ & Hget & Hoth)).
  assert (row_get "YEAR" (columns df) r2 = v1) as Hy2 by (by rewrite Ho2, Hg1).
  rewrite Ho1 in Hv2 by done.
  unfold month_year_of_row in Hlab. rewrite Hy2, Hg2 in Hlab.
  destruct Hi1 as [->|[y ->]]; [done|]. destruct Hi2 as [->|[m ->]]; [done|].
  cbn [astype_int mbind result_bind] in Hlab. rewrite !trunc_of_Z in Hlab.
  exists y, m. split; [done|]. split; [done|].
  split; [by rewrite Hoth, Hy2|]. split; [by rewrite Hoth, Hg2|].
  split; [by rewrite Hget|].
  intros c' ? ? ?. by rewrite Hoth, Ho2, Ho1.
Qed.

End Pipeline.

#[global] Existing Instance measure_ok_dec.

(** * The pipeline on concrete tables *)

(** Sums and means without rounding or overflow are exact. *)
Lemma sum_Qc_exact : exact_sum sum_Qc.
Proof. by intros l _. Qed.

Lemma mean_exact : exact_mean mean.
Proof. by intros l _ _ _. Qed.

(** The three cases of a measure cell: a text that is no number, a
    negative number as text, a missing cell. *)
Example clean_abc_minus5_missing :
  clean Literal.to_numeric_text
    (mkDF [ "Supplier"; "Retail Sales" ]
          [ [Str "A"; Str "abc"]; [Str "B"; Str "-5"]; [Str "C"; NA] ])
  = Ok (mkDF [ "SUPPLIER"; "RETAIL_SALES" ]
          [ [Str "A"; Num 0%Qc]; [Str "B"; Num (- Qc_of_Z 5)%Qc]; [Str "C"; Num 0%Qc] ]).
Proof. by vm_compute. Qed.

Lemma clean_measures_witness :
  ∃ out,
    clean Literal.to_numeric_text raw_cells = Ok out
    ∧ columns out = [ "SUPPLIER"; "RETAIL_SALES"; "WAREHOUSE_SALES" ]
    ∧ length (rows out) = 2.
Proof.
  destruct (clean_measures Literal.to_numeric_text raw_cells)
    as (out & H1 & H2 & H3 & _).
  - by_compute.
  - by_compute.
  - exists out. split; [exact H1|]. split; [exact H2|exact H3].
Defined.

Lemma apply_filters_spec_witness :
  ∃ out,
    apply_filters Literal.str_of_num sales_two_years (mkSel [2023%Z] [ "A" ] []) = Ok out
    ∧ columns out = columns sales_two_years
    ∧ rows out = [ [Int 2023; Int 1; Str "A"; Str "WINE"; Int 40; Str "2023-01"] ].
Proof.
  destruct (apply_filters_spec Literal.str_of_num Literal.int_of_text sales_two_years
              (mkSel [2023%Z] [ "A" ] [])) as (out & H1 & H2 & H3 & _).
  - exists (mkSel [2022%Z; 2023%Z] [ "A"; "B" ] [ "BEER"; "WINE" ]).
    split; [by vm_compute|]. split; [by_compute|]. split; by_compute.
  - exists out. split; [exact H1|]. split; [exact H2|]. rewrite H3. by vm_compute.
Defined.

Lemma totals_spec_witness :
  total (fun _ => sum_Qc) sales_2023 "RETAIL_SALES" = Ok (Qc_of_Z 400)
  ∧ total (fun _ => sum_Qc) sales_2023 "WAREHOUSE_SALES" = Ok 0%Qc.
Proof.
  destruct (totals_spec (fun _ => sum_Qc) sum_Qc mean sales_2023) as [H _].
  - by_compute.
  - intros c. apply sum_Qc_exact.
  - split.
    + destruct (H "RETAIL_SALES") as (_ & H2 & _); [by_compute|].
      rewrite H2 by by_compute. f_equal. apply Qc_is_canon. by vm_compute.
    + destruct (H "WAREHOUSE_SALES") as (_ & _ & _ & H4); [by_compute|].
      apply H4. by_compute.
Defined.

Lemma avg_times_periods_witness :
  ∃ avg,
    avg_monthly sum_Qc mean sales_2023 = Ok avg
    ∧ total (fun _ => sum_Qc) sales_2023 "RETAIL_SALES" = Ok (Qc_of_Z 400)
    ∧ (avg * Qc_of_Z 2)%Qc = Qc_of_Z 400.
Proof.
  destruct (avg_times_periods (fun _ => sum_Qc) sum_Qc mean sales_2023)
    as (avg & Ha & Ht & _ & _ & Hf).
  - apply sum_Qc_exact.
  - apply sum_Qc_exact.
  - apply mean_exact.
  - by_compute.
  - by_compute.
  - by_compute.
  - by_compute.
  - by_compute.
  - assert (column_sum sales_2023 "RETAIL_SALES" = Qc_of_Z 400) as E
      by (apply Qc_is_canon; by vm_compute).
    exists avg. split; [exact Ha|]. split; [by rewrite Ht, E|].
    rewrite <- E. apply Hf. by vm_compute.
Defined.

Lemma full_selection_noop_witness :
  apply_filters Literal.str_of_num sales_2023 (mkSel [2023%Z] [ "A"; "B" ] [ "BEER"; "WINE" ])
  = Ok sales_2023.
Proof.
  apply (full_selection_noop Literal.to_numeric_text Literal.str_of_num Literal.int_of_text
           raw_2023).
  - by_compute.
  - by vm_compute.
  - intros _. left. by_compute.
  - by vm_compute.
Defined.

(** ** Where the program departs from the specification *)

(** C1. MONTH = 13 is not dropped: [pd.to_datetime] raises and
    [preprocess] returns no table.  MONTH = 101 is not dropped either: it
    carries over into the next year. *)
Theorem month_out_of_range (to_numeric_text : string → option Qc) :
  preprocess to_numeric_text month_13 = Raise ValueError
  ∧ preprocess to_numeric_text month_101
    = Ok (mkDF [ "YEAR"; "MONTH"; "MONTH_YEAR" ] [ [Int 2023; Int 101; Str "2024-01"] ]).
Proof. split; by vm_compute. Qed.

(** C2. A table whose header names RETAIL_SALES in both spellings gets
    two columns RETAIL_SALES from [standardize_columns];
    [df["RETAIL_SALES"]] is then a DataFrame, [pd.to_numeric] raises
    TypeError on it and [preprocess] returns no table, whatever the
    cells hold. *)
Theorem duplicated_measure_raises (to_numeric_text : string → option Qc) :
  standardize_columns dup_sales
  = mkDF [ "RETAIL_SALES"; "RETAIL_SALES" ] [ [Int 1; Int 2] ]
  ∧ clean to_numeric_text dup_sales = Raise TypeError
  ∧ preprocess to_numeric_text dup_sales = Raise TypeError.
Proof. repeat split; by vm_compute. Qed.

(** C3. On a table with MONTH_YEAR and without RETAIL_SALES, empty or
    not, the Avg Monthly Retail Sales KPI is not 0.0 and no mean:
    [groupby("MONTH_YEAR")["RETAIL_SALES"]] raises KeyError. *)
Theorem avg_monthly_without_retail_sales (to_numeric_text : string → option Qc)
    (series_sum : string → list Qc → Qc) (grouped_sum series_mean : list Qc → Qc) :
  preprocess to_numeric_text no_sales_empty
  = Ok (mkDF [ "YEAR"; "MONTH"; "MONTH_YEAR" ] [])
  ∧ avg_monthly grouped_sum series_mean (mkDF [ "YEAR"; "MONTH"; "MONTH_YEAR" ] [])
    = Raise KeyError
  ∧ kpi_block series_sum grouped_sum series_mean
      (mkDF [ "YEAR"; "MONTH"; "MONTH_YEAR" ] [])
    = Raise KeyError.
Proof. repeat split; by vm_compute. Qed.

(** C5. A table without RETAIL_SALES stops the script in [kpi_block]
    (KeyError), and a table without ITEM_DESCRIPTION stops it at line
    235 (KeyError), which reads the column before testing for it. *)
Theorem absent_column_raises (to_numeric_text : string → option Qc)
    (series_sum : string → list Qc → Qc) (grouped_sum series_mean : list Qc → Qc) :
  dashboard_kpis to_numeric_text Literal.str_of_num Literal.int_of_text
    series_sum grouped_sum series_mean no_sales
  = Raise KeyError
  ∧ preprocess to_numeric_text sales_only = Ok sales_only
  ∧ returns (dashboard_kpis to_numeric_text Literal.str_of_num Literal.int_of_text
               series_sum grouped_sum series_mean sales_only)
  ∧ item_labels Literal.str_of_num sales_only = Raise KeyError.
Proof.
  split; [by vm_compute|]. split; [by vm_compute|]. split; [|by vm_compute].
  eexists. by vm_compute.
Qed.

(** C6 as stated fails: [big_sales] passes through [preprocess] and the
    default filters as it is; its int64 column adds up to 2^63, which
    wraps around to -2^63. *)
Lemma total_wraps_around :
  preprocess Literal.to_numeric_text big_sales = Ok big_sales
  ∧ default_selection Literal.str_of_num Literal.int_of_text big_sales
    = Ok (mkSel [] [] [])
  ∧ apply_filters Literal.str_of_num big_sales (mkSel [] [] []) = Ok big_sales
  ∧ column_sum big_sales "RETAIL_SALES" = Qc_of_Z (2 ^ 63)
  ∧ total (fun _ => Int64.sum) big_sales "RETAIL_SALES" = Ok (Qc_of_Z (- 2 ^ 63))
  ∧ total (fun _ => Int64.sum) big_sales "RETAIL_SALES"
    ≠ Ok (column_sum big_sales "RETAIL_SALES").
Proof.
  split; [by vm_compute|]. split; [by vm_compute|]. split; [by vm_compute|].
  split; [apply Qc_is_canon; by vm_compute|].
  destruct (total (fun _ => Int64.sum) big_sales "RETAIL_SALES") as [t|] eqn:E;
    vm_compute in E; [injection E as <-|discriminate].
  split; [f_equal; apply Qc_is_canon; by vm_compute|].
  intros H. injection H as H. discriminate H.
Qed.

(** C7 as stated fails: [year_missing] is returned by [preprocess] as
    it is, and the filters with the full selection drop its second row. *)
Lemma full_selection_drops_missing_year :
  preprocess Literal.to_numeric_text year_missing = Ok year_missing
  ∧ sidebar_options Literal.str_of_num Literal.int_of_text year_missing
    = Ok (mkSel [2023%Z] [] [])
  ∧ apply_filters Literal.str_of_num year_missing (mkSel [2023%Z] [] [])
    = Ok (mkDF [ "YEAR" ] [ [Int 2023] ])
  ∧ apply_filters Literal.str_of_num year_missing (mkSel [2023%Z] [] [])
    ≠ Ok year_missing.
Proof. repeat split; by vm_compute. Qed.

(** C9 as stated fails: after [standardize_columns] the object that was
    passed has other labels, and after line 235 the object [filtered]
    has other cells. *)
Lemma standardize_columns_overwrites :
  (obj_standardize_columns 0 [legacy_label]).1 = 0
  ∧ (obj_standardize_columns 0 [legacy_label]).2 !! 0
    = Some (mkDF [ "ITEM_CODE" ] [ [Str "A1"] ])
  ∧ (obj_standardize_columns 0 [legacy_label]).2 !! 0 ≠ [legacy_label] !! 0
  ∧ obj_item_labels Literal.str_of_num 0 [numbered_items]
    = Ok (0, [mkDF [ "ITEM_DESCRIPTION"; "RETAIL_SALES" ] [ [Str "7"; Int 5] ]])
  ∧ obj_item_labels Literal.str_of_num 0 [numbered_items] ≠ Ok (0, [numbered_items]).
Proof. repeat split; by vm_compute. Qed.

(** C10 as stated fails.  [period_missing] passes through [preprocess]
    and the default filters as it is; its one period has the sum 100, so
    the average is 100, and the total is 150.  [seven_periods] has no
    missing key; its total is 29 and its average the float64 number
    nearest to 29/7, which times 7 is not 29, with or without rounding
    the product. *)
Lemma avg_times_periods_with_missing_key :
  preprocess Literal.to_numeric_text period_missing = Ok period_missing
  ∧ default_selection Literal.str_of_num Literal.int_of_text period_missing
    = Ok (mkSel [] [] [])
  ∧ apply_filters Literal.str_of_num period_missing (mkSel [] [] []) = Ok period_missing
  ∧ periods period_missing = [Str "2023-01"]
  ∧ (¬ ∃ avg tot,
        avg_monthly Int64.add_up Float64.mean period_missing = Ok avg
        ∧ total (fun _ => Int64.sum) period_missing "RETAIL_SALES" = Ok tot
        ∧ ((avg * Qc_of_Z (Z.of_nat (length (periods period_missing))))%Qc = tot
           ∨ (avg * Qc_of_Z (Z.of_nat (length (unique (column period_missing "MONTH_YEAR")))))%Qc
             = tot))
  ∧ preprocess Literal.to_numeric_text seven_periods = Ok seven_periods
  ∧ apply_filters Literal.str_of_num seven_periods (mkSel [] [] []) = Ok seven_periods
  ∧ length (unique (column seven_periods "MONTH_YEAR")) = 7
  ∧ ¬ ∃ avg tot,
        avg_monthly Int64.add_up Float64.mean seven_periods = Ok avg
        ∧ total (fun _ => Int64.sum) seven_periods "RETAIL_SALES" = Ok tot
        ∧ ((avg * Qc_of_Z 7)%Qc = tot ∨ Float64.round (avg * Qc_of_Z 7) = tot).
Proof.
  split; [by vm_compute|]. split; [by vm_compute|]. split; [by vm_compute|].
  split; [by vm_compute|]. split.
  { intros (avg & tot & Ha & Ht & H).
    vm_compute in Ha. vm_compute in Ht. injection Ha as <-. injection Ht as <-.
    destruct H as [H|H]; apply (f_equal this) in H; vm_compute in H; discriminate. }
  split; [by vm_compute|]. split; [by vm_compute|]. split; [by vm_compute|].
  intros (avg & tot & Ha & Ht & H).
  vm_compute in Ha. vm_compute in Ht. injection Ha as <-. injection Ht as <-.
  destruct H as [H|H]; apply (f_equal this) in H; vm_compute in H; discriminate.
Qed.
